(** * Content pipeline of the MDX blog: a shallow embedding

    This development embeds [src/app/posts/utils.ts] (front-matter
    normalisation, listing, category counts, single-post lookup) and the
    [extractText] projection of [src/components/CodeBlock.tsx].

    The TypeScript runs on a JavaScript engine, so the embedding starts with
    the part of the language the code relies on: untyped values, the
    coercions [ToBoolean] and [String(...)], exceptions, and dates.  What the
    engine leaves to the implementation or to tables too large to restate
    (parsing of free-form date strings, Unicode case mapping, the order
    [Array.prototype.sort] produces), the MDX compiler, and what the host
    holds outside the content directory, is an interface, [Runtime];
    theorems hold for every runtime, and [refRuntime] is one that computes.

    The content directory is a tree of entries; a file is read at the path
    [path.join] makes of the directory and the name asked for.  A text is
    given by what gray-matter makes of it, the exception and the cache entry
    of a metadata block that does not parse included; a call of an exported
    function is described from one state of that cache. *)

From Stdlib Require Import ZArith Bool Ascii String List Lia Floats.
From Stdlib Require Import Sorting.Permutation Sorting.Sorted.
From stdpp Require Import base option list gmap strings.

Set Warnings "-register-all".

Local Open Scope string_scope.
Local Open Scope Z_scope.

(** ** Exceptions *)

(** The exceptions that can reach a caller of the query layer: the two
    built-in error classes raised by coercions (and, for [TypeError], by
    [fs] on a path that holds a null byte), Node's system errors (carrying
    their [code], e.g. ENOENT) raised by [fs], and the exception js-yaml
    raises, through gray-matter, on a YAML metadata block it cannot
    parse. *)
Inductive JsError : Type :=
| TypeError
| RangeError
| SystemError (code : string)
| YAMLException.

(** A JavaScript computation either completes with a value or throws. *)
Inductive Result (A : Type) : Type :=
| Ok (a : A)
| Throw (e : JsError).

Arguments Ok {A} a.
Arguments Throw {A} e.

#[global] Instance Result_ret : MRet Result := fun _ a => Ok a.

#[global] Instance Result_bind : MBind Result := fun _ _ f m =>
  match m with
  | Ok a => f a
  | Throw e => Throw e
  end.

#[global] Instance Result_fmap : FMap Result := fun _ _ f m =>
  match m with
  | Ok a => Ok (f a)
  | Throw e => Throw e
  end.

Definition isOk {A} (r : Result A) : bool :=
  match r with Ok _ => true | Throw _ => false end.

(** ** Values *)

(** The values front matter can hold.  A number is a binary64 float.  A
    string is the sequence of its bytes.  A [Date] carries its time value:
    an integral number of milliseconds since the epoch, or [None] for NaN
    (an "Invalid Date").  An object is its list of own data properties;
    front matter never holds functions. *)
Inductive JsValue : Type :=
| JsUndefined
| JsNull
| JsBool (b : bool)
| JsNumber (x : float)
| JsString (s : string)
| JsDate (tv : option Z)
| JsArray (xs : list JsValue)
| JsObject (props : list (string * JsValue)).

(** [o.key]: the own property, [undefined] when there is none. *)
Fixpoint getProp (props : list (string * JsValue)) (key : string) : JsValue :=
  match props with
  | [] => JsUndefined
  | (k, v) :: rest => if String.eqb k key then v else getProp rest key
  end.

Definition hasOwn (props : list (string * JsValue)) (key : string) : bool :=
  existsb (fun kv => String.eqb (fst kv) key) props.

(** [!v] is [negb (ToBoolean v)]. *)
Definition ToBoolean (v : JsValue) : bool :=
  match v with
  | JsUndefined | JsNull => false
  | JsBool b => b
  | JsNumber x => negb (PrimFloat.is_zero x || PrimFloat.is_nan x)
  | JsString s => negb (String.eqb s "")
  | JsDate _ | JsArray _ | JsObject _ => true
  end.

Definition isNullish (v : JsValue) : bool :=
  match v with
  | JsUndefined | JsNull => true
  | _ => false
  end.

(** [a ?? b] *)
Definition nullish (a b : JsValue) : JsValue :=
  if isNullish a then b else a.

Infix "??" := nullish (at level 45, left associativity).

(** [v instanceof Date] *)
Definition instanceofDate (v : JsValue) : bool :=
  match v with JsDate _ => true | _ => false end.

(** ** The render tree *)

(** A [React.ReactNode]: nullish, a boolean, a text or numeric leaf, an array
    of nodes, an element (its [props.children], [RUndefined] when it has
    none), or anything else ([isValidElement] false: a portal, a bigint). *)
Inductive ReactNode : Type :=
| RUndefined
| RNull
| RBool (b : bool)
| RString (s : string)
| RNumber (x : float)
| RArray (nodes : list ReactNode)
| RElement (type : string) (children : ReactNode)
| ROther.

(** ** Files and gray-matter *)

(** The text of a file, by what gray-matter's [matter(raw)] makes of it.

    [Document]: a text with no metadata block, or with one that parses; the
    own properties of [data] and the body [content].

    [Malformed]: a text whose metadata block its parser rejects; [raw] is
    the whole text and [thrown] the exception of the parser, js-yaml's
    [YAMLException] for a block of invalid YAML or with a duplicated key.
    gray-matter stores the file object in [matter.cache], under its text,
    before it parses it, so the call that throws leaves behind an entry
    whose [data] is empty and whose [content] is still the whole text, and
    every later call of the process on the same text returns that entry.
    [cached] says whether such a call has been made: it is part of the
    state of the process, not of the disk.  (For a [Document] the cache
    holds what parsing gives.) *)
Inductive FileText : Type :=
| Document (data : list (string * JsValue)) (content : string)
| Malformed (raw : string) (thrown : JsError) (cached : bool).

(** [matter(raw)], called without options as [utils.ts] does. *)
Definition matter (raw : FileText) : Result (list (string * JsValue) * string) :=
  match raw with
  | Document data content => Ok (data, content)
  | Malformed text thrown false => Throw thrown
  | Malformed text thrown true => Ok ([], text)
  end.

(** The [data] and the [content] that [matter] returns, when it returns. *)
Definition file_data (raw : FileText) : list (string * JsValue) :=
  match raw with
  | Document data _ => data
  | Malformed _ _ _ => []
  end.

Definition file_content (raw : FileText) : string :=
  match raw with
  | Document _ content => content
  | Malformed text _ _ => text
  end.

(** ** The engine and the host *)

Class Runtime : Type := {
  (** [Number::toString]: the shortest digits that round-trip. *)
  Number_toString : float -> string;
  (** [Date.prototype.toString] of a valid time value, in the local zone. *)
  Date_toString : Z -> string;
  (** [Date.parse]: the time value, [None] for NaN. *)
  Date_parse : string -> option Z;
  (** [String.prototype.toLowerCase], by the Unicode case mapping. *)
  String_toLowerCase : string -> string;
  (** [String.prototype.trim]: strips white space and line terminators. *)
  String_trim : string -> string;
  (** [Array.prototype.sort] with a comparator; the array it leaves. *)
  Array_sort : forall A : Type, (A -> A -> Z) -> list A -> list A;
  (** [compileMDX] of next-mdx-remote on a body, with the options and the
      [pre] component of [getPostBySlug]: the element, or the exception of a
      body that does not compile. *)
  compileMDX : string -> Result ReactNode;
  (** [process.cwd()], by its segments: an absolute path. *)
  cwd : list string;
  (** [fs.readFile(path, "utf8")] for a normalised absolute path, given by
      its segments, that does not lie under [POSTS_DIR]: the rest of the
      file system. *)
  readOutside : list string -> Result FileText
}.

Arguments Array_sort {_} {A} cmp l.

(** ** Coercion to string *)

Section Coercions.
Context `{Runtime}.

(** [String(v)], that is [ToString(v)] (front matter holds no symbols).
    An array goes through [Array.prototype.join(",")], under which nullish
    elements print as empty.  An object goes through
    [OrdinaryToPrimitive(v, string)]: an own data property [toString]
    shadows [Object.prototype.toString] and is not callable, and
    [Object.prototype.valueOf] returns the object itself, so the conversion
    throws a [TypeError]; without such a property the result is
    ["[object Object]"]. *)
Fixpoint ToString (v : JsValue) : Result string :=
  match v with
  | JsUndefined => Ok "undefined"
  | JsNull => Ok "null"
  | JsBool true => Ok "true"
  | JsBool false => Ok "false"
  | JsNumber x => Ok (Number_toString x)
  | JsString s => Ok s
  | JsDate None => Ok "Invalid Date"
  | JsDate (Some t) => Ok (Date_toString t)
  | JsArray xs =>
      parts ← mapM (fun x => if isNullish x then Ok "" else ToString x) xs;
      Ok (String.concat "," parts)
  | JsObject props =>
      if hasOwn props "toString" then Throw TypeError
      else Ok "[object Object]"
  end.

(** [xs.map(String)] *)
Definition mapString (xs : list JsValue) : Result (list string) :=
  mapM ToString xs.

End Coercions.

(** ** Dates *)

Definition msPerDay : Z := 86400000.

(** [Day(t)] and [TimeWithinDay(t)] of ECMAScript. *)
Definition Day (t : Z) : Z := t / msPerDay.
Definition TimeWithinDay (t : Z) : Z := t mod msPerDay.

(** Year, month (1 to 12) and day of the month of a day number counted from
    1970-01-01, in the proleptic Gregorian calendar. *)
Definition civilFromDays (day : Z) : Z * Z * Z :=
  let z := day + 719468 in
  let era := z / 146097 in
  let doe := z mod 146097 in
  let yoe := (doe - doe / 1460 + doe / 36524 - doe / 146096) / 365 in
  let doy := doe - (365 * yoe + yoe / 4 - yoe / 100) in
  let mp := (5 * doy + 2) / 153 in
  let d := doy - (153 * mp + 2) / 5 + 1 in
  let m := if mp <? 10 then mp + 3 else mp - 9 in
  (yoe + era * 400 + (if m <=? 2 then 1 else 0), m, d).

(** The inverse: the day number of a calendar date. *)
Definition daysFromCivil (y m d : Z) : Z :=
  let y' := if m <=? 2 then y - 1 else y in
  let era := y' / 400 in
  let yoe := y' mod 400 in
  let doy := (153 * (if 2 <? m then m - 3 else m + 9) + 2) / 5 + d - 1 in
  let doe := yoe * 365 + yoe / 4 - yoe / 100 + doy in
  era * 146097 + doe - 719468.

Definition digitChar (d : Z) : ascii := ascii_of_nat (48 + Z.to_nat d).

(** The last [width] decimal digits of [n], most significant first. *)
Fixpoint padDigits (width : nat) (n : Z) : string :=
  match width with
  | O => ""
  | S w => padDigits w (n / 10) +:+ String (digitChar (n mod 10)) ""
  end.

(** The year of the date-time string format: four digits, or a sign and six
    digits outside 0..9999. *)
Definition isoYear (y : Z) : string :=
  if (0 <=? y) && (y <=? 9999) then padDigits 4 y
  else (if y <? 0 then "-" else "+") +:+ padDigits 6 (Z.abs y).

(** [Date.prototype.toISOString] on a valid time value:
    [YYYY-MM-DDTHH:mm:ss.sssZ] in UTC. *)
Definition isoFormat (t : Z) : string :=
  let '(y, m, d) := civilFromDays (Day t) in
  let ms := TimeWithinDay t in
  isoYear y +:+ "-" +:+ padDigits 2 m +:+ "-" +:+ padDigits 2 d +:+ "T"
    +:+ padDigits 2 (ms / 3600000) +:+ ":"
    +:+ padDigits 2 (ms / 60000 mod 60) +:+ ":"
    +:+ padDigits 2 (ms / 1000 mod 60) +:+ "."
    +:+ padDigits 3 (ms mod 1000) +:+ "Z".

(** [d.toISOString()]: a [RangeError] when the time value is NaN. *)
Definition toISOString (tv : option Z) : Result string :=
  match tv with
  | Some t => Ok (isoFormat t)
  | None => Throw RangeError
  end.

(** [Number.isNaN] on a time value. *)
Definition Number_isNaN (a : option Z) : bool :=
  match a with
  | Some _ => false
  | None => true
  end.

(** [a < b] and [a >= b] on time values: false as soon as one is NaN. *)
Definition num_lt (a b : option Z) : bool :=
  match a, b with
  | Some x, Some y => x <? y
  | _, _ => false
  end.

Definition num_ge (a b : option Z) : bool :=
  match a, b with
  | Some x, Some y => y <=? x
  | _, _ => false
  end.

(** ** The data model of [utils.ts] *)

(** [Category] is a union of string literals: at run time a category is a
    string, and only [normalizeCategory] keeps it inside the enumeration. *)
Definition ALL_CATEGORIES : list string := ["frontend"; "backend"; "infra"; "etc"].

(** [PostFrontMatter]; the optional fields are [None] when [undefined]. *)
Record PostFrontMatter : Type := {
  title : string;
  createdAt : string;
  updatedAt : string;
  category : string;
  description : option string;
  tags : option (list string)
}.

Record PostListItem : Type := {
  slug : string;
  frontMatter : PostFrontMatter
}.

(** What [getPostBySlug] returns: [{ frontMatter, content }]. *)
Record RenderedPost : Type := {
  post_frontMatter : PostFrontMatter;
  post_content : ReactNode
}.

(** One entry of [listCategories]: [{ category, count }]. *)
Record CategoryCount : Type := {
  cc_category : string;
  cc_count : nat
}.

(** ** The content directory *)

(** [POSTS_DIR] is a directory of a POSIX file system (the site is built on
    Linux): names are byte strings, compared as they are; there are no
    symbolic links; every entry may be read, and paths stay within the
    length limits of the file system. *)

(** Whether a string holds the character [c]. *)
Fixpoint hasChar (c : ascii) (s : string) : bool :=
  match s with
  | EmptyString => false
  | String c' rest => Ascii.eqb c' c || hasChar c rest
  end.

(** [s.split(sep)] for a separator of one character. *)
Fixpoint String_split (sep : ascii) (s : string) : list string :=
  match s with
  | EmptyString => [""]
  | String c rest =>
      let parts := String_split sep rest in
      if Ascii.eqb c sep then "" :: parts
      else
        match parts with
        | part :: others => String c part :: others
        | [] => [String c ""]
        end
  end.

(** A directory entry ([fs.Dirent]): its name and what it is.  A regular
    file holds its text, a directory its entries. *)
Record DirentOf (K : Type) : Type := {
  name : string;
  kind : K
}.

Arguments name {K} _.
Arguments kind {K} _.

Inductive DirentKind : Type :=
| RegularFile (text : FileText)
| Directory (children : list (DirentOf DirentKind)).

Definition Dirent : Type := DirentOf DirentKind.

(** [POSTS_DIR] on disk: its entries, or [None] when it does not exist. *)
Definition ContentRoot : Type := option (list Dirent).

Definition isFile (e : Dirent) : bool :=
  match kind e with RegularFile _ => true | Directory _ => false end.

(** [fs.readdir(POSTS_DIR, { withFileTypes: true })] *)
Definition readdir (root : ContentRoot) : Result (list Dirent) :=
  match root with
  | Some entries => Ok entries
  | None => Throw (SystemError "ENOENT")
  end.

(** [path.normalize] on the segments of an absolute path: empty segments
    (from doubled separators) and "." are dropped, ".." removes the segment
    before it and stays at the root when there is none.  [above] holds the
    segments already passed, the nearest first. *)
Fixpoint normalizeSegments (above : list string) (segments : list string)
  : list string :=
  match segments with
  | [] => rev above
  | segment :: rest =>
      if String.eqb segment "" || String.eqb segment "."
      then normalizeSegments above rest
      else if String.eqb segment ".."
      then normalizeSegments (tl above) rest
      else normalizeSegments (segment :: above) rest
  end.

(** [path.join(process.cwd(), "src", "content")] *)
Definition POSTS_DIR `{Runtime} : list string :=
  normalizeSegments [] (cwd ++ ["src"; "content"]).

(** [path.join(POSTS_DIR, file)] *)
Definition joinPostsDir `{Runtime} (file : string) : list string :=
  normalizeSegments [] (POSTS_DIR ++ String_split "/" file).

(** The rest of [path] after the directory [dir], when it lies at or under
    it. *)
Fixpoint under (dir path : list string) : option (list string) :=
  match dir, path with
  | [], _ => Some path
  | d :: dir', segment :: path' =>
      if String.eqb d segment then under dir' path' else None
  | _ :: _, [] => None
  end.

(** Reading the file at a path relative to a directory, given the entries
    of the directory. *)
Fixpoint readAt (entries : list Dirent) (path : list string) : Result FileText :=
  match path with
  | [] => Throw (SystemError "EISDIR")
  | segment :: rest =>
      match find (fun e : Dirent => String.eqb (name e) segment) entries with
      | None => Throw (SystemError "ENOENT")
      | Some e =>
          match kind e, rest with
          | RegularFile text, [] => Ok text
          | RegularFile _, _ :: _ => Throw (SystemError "ENOTDIR")
          | Directory _, [] => Throw (SystemError "EISDIR")
          | Directory children, _ :: _ => readAt children rest
          end
      end
  end.

(** [fs.readFile(path.join(POSTS_DIR, file), "utf8")].  [fs] refuses a path
    that holds a null byte before it looks at the disk; the joined path is
    then looked up under [POSTS_DIR] when it lies there and in the rest of
    the file system when [file] leads out of it. *)
Definition readFile `{Runtime} (root : ContentRoot) (file : string) : Result FileText :=
  if hasChar "000" file then Throw TypeError
  else
    let full := joinPostsDir file in
    match under POSTS_DIR full with
    | Some relative =>
        match root with
        | Some entries => readAt entries relative
        | None => Throw (SystemError "ENOENT")
        end
    | None => readOutside full
    end.

(** [s.endsWith(suffix)] *)
Definition endsWith (s suffix : string) : bool :=
  let n := String.length s in
  let k := String.length suffix in
  (k <=? n)%nat && String.eqb (substring (n - k) k s) suffix.

(** [s.includes(x)] on an array of strings. *)
Definition includes (l : list string) (x : string) : bool :=
  existsb (String.eqb x) l.

(** [name.replace(/\.mdx$/, "")] *)
Definition stripMdx (file : string) : string :=
  if endsWith file ".mdx" then substring 0 (String.length file - 4) file
  else file.

(** ** [utils.ts] and [CodeBlock.tsx] *)

Section Program.
Context `{Runtime}.

Definition normalizeDateToISO (value : JsValue) : Result string :=
  if negb (ToBoolean value) then toISOString (Some 0)
  else
    match value with
    | JsDate tv => toISOString tv
    | _ =>
        asString ← ToString value;
        let dt := Date_parse asString in
        if negb (Number_isNaN dt) then toISOString dt
        else Ok asString
    end.

Definition normalizeCategory (value : JsValue) : Result string :=
  if negb (ToBoolean value) then Ok "etc"
  else
    s ← ToString value;
    let asString := String_trim (String_toLowerCase s) in
    Ok (if includes ALL_CATEGORIES asString then asString else "etc").

(** The object literal [normalized] of [listPosts]; its fields are
    evaluated in the order written. *)
Definition normalized_listPosts (fm : list (string * JsValue)) : Result PostFrontMatter :=
  title ← ToString (getProp fm "title" ?? JsString "Untitled");
  createdAt ← normalizeDateToISO (getProp fm "createdAt" ?? getProp fm "date");
  updatedAt ← normalizeDateToISO
    (getProp fm "updatedAt" ?? getProp fm "createdAt" ?? getProp fm "date");
  category ← normalizeCategory (getProp fm "category");
  description ←
    (if ToBoolean (getProp fm "description")
     then Some <$> ToString (getProp fm "description")
     else Ok None);
  tags ←
    (match getProp fm "tags" with
     | JsArray xs => Some <$> mapString xs
     | _ => Ok None
     end);
  Ok {| title := title; createdAt := createdAt; updatedAt := updatedAt;
        category := category; description := description; tags := tags |}.

(** The object literal [normalized] of [getPostBySlug]. *)
Definition normalized_getPostBySlug (slug : string) (fm : list (string * JsValue))
  : Result PostFrontMatter :=
  title ← ToString (getProp fm "title" ?? JsString slug);
  createdAt ← normalizeDateToISO (getProp fm "createdAt" ?? getProp fm "date");
  updatedAt ← normalizeDateToISO
    (getProp fm "updatedAt" ?? getProp fm "createdAt" ?? getProp fm "date");
  category ← normalizeCategory (getProp fm "category");
  description ←
    (if ToBoolean (getProp fm "description")
     then Some <$> ToString (getProp fm "description")
     else Ok None);
  tags ←
    (match getProp fm "tags" with
     | JsArray xs => Some <$> mapString xs
     | _ => Ok None
     end);
  Ok {| title := title; createdAt := createdAt; updatedAt := updatedAt;
        category := category; description := description; tags := tags |}.

(** [new Date(s).getTime()]: [None] is NaN. *)
Definition getTime (s : string) : option Z := Date_parse s.

(** The comparator handed to [posts.sort]. *)
Definition comparePosts (a b : PostListItem) : Z :=
  if num_lt (getTime (createdAt (frontMatter a))) (getTime (createdAt (frontMatter b)))
  then 1 else -1.

Definition isMdxFile (e : Dirent) : bool :=
  isFile e && endsWith (name e) ".mdx".

(** The body of the [for] loop of [listPosts]. *)
Definition readPost (root : ContentRoot) (file : Dirent) : Result PostListItem :=
  raw ← readFile root (name file);
  '(data, _) ← matter raw;
  normalized ← normalized_listPosts data;
  Ok {| slug := stripMdx (name file); frontMatter := normalized |}.

Definition listPosts (root : ContentRoot) : Result (list PostListItem) :=
  entries ← readdir root;
  let mdxFiles := List.filter isMdxFile entries in
  posts ← mapM (readPost root) mdxFiles;
  Ok (Array_sort comparePosts posts).

Definition getPostSlugs (root : ContentRoot) : Result (list string) :=
  entries ← readdir root;
  Ok (map (fun e => stripMdx (name e)) (List.filter isMdxFile entries)).

Definition getPostBySlug (root : ContentRoot) (slug : string) : Result RenderedPost :=
  raw ← readFile root (slug +:+ ".mdx");
  '(data, content) ← matter raw;
  compiled ← compileMDX content;
  normalized ← normalized_getPostBySlug slug data;
  Ok {| post_frontMatter := normalized; post_content := compiled |}.

(** [counts.get(c) ?? 0] *)
Definition getCount (counts : gmap string nat) (c : string) : nat :=
  default 0%nat (counts !! c).

Definition listCategories (root : ContentRoot) : Result (list CategoryCount) :=
  posts ← listPosts root;
  let counts0 : gmap string nat :=
    foldl (fun counts c => <[c := 0%nat]> counts) ∅ ALL_CATEGORIES in
  let counts :=
    foldl (fun counts p =>
             <[category (frontMatter p) :=
                 (getCount counts (category (frontMatter p)) + 1)%nat]> counts)
          counts0 posts in
  Ok (map (fun c => {| cc_category := c; cc_count := getCount counts c |})
          ALL_CATEGORIES).

Definition listPostsByCategory (root : ContentRoot) (c : string)
  : Result (list PostListItem) :=
  posts ← listPosts root;
  Ok (List.filter (fun p => String.eqb (category (frontMatter p)) c) posts).

Definition isValidCategory (c : string) : bool :=
  includes ALL_CATEGORIES c.

(** [extractText] of [CodeBlock.tsx]. *)
Fixpoint extractText (node : ReactNode) : string :=
  match node with
  | RUndefined | RNull => ""
  | RString s => s
  | RNumber x => Number_toString x
  | RArray nodes => String.concat "" (map extractText nodes)
  | RElement _ children => extractText children
  | RBool _ | ROther => ""
  end.

End Program.

(** ** A reference runtime *)

(** An engine that computes, in the UTC time zone.  It follows ECMAScript
    where ECMAScript fixes the result, and is deliberately small where it
    does not: [Date.parse] recognises the two date-time string formats
    [YYYY-MM-DD] and [YYYY-MM-DDTHH:mm:ss.sssZ] and nothing else, strings are
    byte strings whose case mapping and white space are those of ASCII, and
    the sort is an insertion sort. *)
Module Ref.

(** The decimal digits of a natural number, without leading zeros. *)
Fixpoint digits (fuel : nat) (n : Z) : string :=
  match fuel with
  | O => ""
  | S fuel' =>
      (if n <? 10 then "" else digits fuel' (n / 10))
        +:+ String (digitChar (n mod 10)) ""
  end.

Definition natural (n : Z) : string :=
  digits (S (Z.to_nat (Z.log2 n))) n.

(** Drops the zeros at the end of a fraction. *)
Fixpoint stripZeros (s : string) : string :=
  match s with
  | EmptyString => ""
  | String c rest =>
      let r := stripZeros rest in
      if Ascii.eqb c "0" && String.eqb r "" then "" else String c r
  end.

(** The value [m * 2^e] in decimal, exactly. *)
Definition decimal (m e : Z) : string :=
  if 0 <=? e then natural (m * 2 ^ e)
  else
    let k := - e in
    let frac := m mod 2 ^ k in
    natural (m / 2 ^ k)
      +:+ (if frac =? 0 then ""
           else "." +:+ stripZeros (padDigits (Z.to_nat k) (frac * 5 ^ k))).

(** Agrees with [Number::toString] on NaN, the zeros, the infinities and
    the integral doubles below 10^21; another double gets the exact
    decimal expansion of its binary value, which can be longer than the
    digits an engine prints. *)
Definition Number_toString (x : float) : string :=
  match Prim2SF x with
  | S754_nan => "NaN"
  | S754_zero _ => "0"
  | S754_infinity false => "Infinity"
  | S754_infinity true => "-Infinity"
  | S754_finite s m e => (if s then "-" else "") +:+ decimal (Zpos m) e
  end.

Definition weekDay (t : Z) : string :=
  nth (Z.to_nat ((Day t + 4) mod 7))
      ["Sun"; "Mon"; "Tue"; "Wed"; "Thu"; "Fri"; "Sat"] "".

Definition monthName (m : Z) : string :=
  nth (Z.to_nat (m - 1))
      ["Jan"; "Feb"; "Mar"; "Apr"; "May"; "Jun";
       "Jul"; "Aug"; "Sep"; "Oct"; "Nov"; "Dec"] "".

(** [Date.prototype.toString] in the UTC zone. *)
Definition Date_toString (t : Z) : string :=
  let '(y, m, d) := civilFromDays (Day t) in
  let ms := TimeWithinDay t in
  weekDay t +:+ " " +:+ monthName m +:+ " " +:+ padDigits 2 d +:+ " "
    +:+ (if y <? 0 then "-" else "")
    +:+ (if Z.abs y <? 10000 then padDigits 4 (Z.abs y) else natural (Z.abs y))
    +:+ " " +:+ padDigits 2 (ms / 3600000) +:+ ":"
    +:+ padDigits 2 (ms / 60000 mod 60) +:+ ":"
    +:+ padDigits 2 (ms / 1000 mod 60)
    +:+ " GMT+0000 (Coordinated Universal Time)".

Definition digitVal (c : ascii) : option Z :=
  let n := Z.of_nat (nat_of_ascii c) in
  if (48 <=? n) && (n <=? 57) then Some (n - 48) else None.

(** Reads exactly [k] digits. *)
Fixpoint takeDigits (k : nat) (acc : Z) (s : string) : option (Z * string) :=
  match k with
  | O => Some (acc, s)
  | S k' =>
      match s with
      | String c rest => d ← digitVal c; takeDigits k' (acc * 10 + d) rest
      | EmptyString => None
      end
  end.

Definition expect (c : ascii) (s : string) : option string :=
  match s with
  | String c' rest => if Ascii.eqb c c' then Some rest else None
  | EmptyString => None
  end.

Definition isLeap (y : Z) : bool :=
  (y mod 4 =? 0) && (negb (y mod 100 =? 0) || (y mod 400 =? 0)).

Definition daysInMonth (y m : Z) : Z :=
  if m =? 2 then (if isLeap y then 29 else 28)
  else if (m =? 4) || (m =? 6) || (m =? 9) || (m =? 11) then 30 else 31.

Definition Date_parse (s : string) : option Z :=
  '(y, s) ← takeDigits 4 0 s;
  s ← expect "-" s;
  '(m, s) ← takeDigits 2 0 s;
  s ← expect "-" s;
  '(d, s) ← takeDigits 2 0 s;
  if (1 <=? m) && (m <=? 12) && (1 <=? d) && (d <=? daysInMonth y m) then
    let day := daysFromCivil y m d in
    if String.eqb s "" then Some (day * msPerDay)
    else
      s ← expect "T" s;
      '(hh, s) ← takeDigits 2 0 s;
      s ← expect ":" s;
      '(mm, s) ← takeDigits 2 0 s;
      s ← expect ":" s;
      '(ss, s) ← takeDigits 2 0 s;
      s ← expect "." s;
      '(ms, s) ← takeDigits 3 0 s;
      s ← expect "Z" s;
      if String.eqb s "" && (hh <=? 23) && (mm <=? 59) && (ss <=? 59)
      then Some (day * msPerDay + hh * 3600000 + mm * 60000 + ss * 1000 + ms)
      else None
  else None.

Definition lowerChar (c : ascii) : ascii :=
  let n := nat_of_ascii c in
  if (65 <=? n)%nat && (n <=? 90)%nat then ascii_of_nat (n + 32) else c.

Fixpoint String_toLowerCase (s : string) : string :=
  match s with
  | EmptyString => ""
  | String c rest => String (lowerChar c) (String_toLowerCase rest)
  end.

Definition isSpace (c : ascii) : bool :=
  let n := nat_of_ascii c in
  (n =? 32)%nat || ((9 <=? n)%nat && (n <=? 13)%nat).

Fixpoint trimStart (s : string) : string :=
  match s with
  | EmptyString => ""
  | String c rest => if isSpace c then trimStart rest else s
  end.

Fixpoint trimEnd (s : string) : string :=
  match s with
  | EmptyString => ""
  | String c rest =>
      let r := trimEnd rest in
      if isSpace c && String.eqb r "" then "" else String c r
  end.

Definition String_trim (s : string) : string := trimEnd (trimStart s).

(** Puts [x] in front of the first element it may precede. *)
Fixpoint insert {A : Type} (cmp : A -> A -> Z) (x : A) (l : list A) : list A :=
  match l with
  | [] => [x]
  | y :: rest => if cmp x y <=? 0 then x :: l else y :: insert cmp x rest
  end.

Definition Array_sort (A : Type) (cmp : A -> A -> Z) (l : list A) : list A :=
  foldr (insert cmp) [] l.

(** A body is rendered as one paragraph holding its text. *)
Definition compileMDX (body : string) : Result ReactNode :=
  Ok (RElement "p" (RString body)).

(** The site is checked out in [/srv/blog]. *)
Definition cwd : list string := ["srv"; "blog"].

(** Outside the content directory the host holds one file, beside it:
    [/srv/blog/src/notes.mdx]. *)
Definition readOutside (path : list string) : Result FileText :=
  if bool_decide (path = ["srv"; "blog"; "src"; "notes.mdx"])
  then Ok (Document [("title", JsString "Notes")] "not a post")
  else Throw (SystemError "ENOENT").

End Ref.

#[global] Instance refRuntime : Runtime := {
  Number_toString := Ref.Number_toString;
  Date_toString := Ref.Date_toString;
  Date_parse := Ref.Date_parse;
  String_toLowerCase := Ref.String_toLowerCase;
  String_trim := Ref.String_trim;
  Array_sort := Ref.Array_sort;
  compileMDX := Ref.compileMDX;
  cwd := Ref.cwd;
  readOutside := Ref.readOutside
}.

(** ** Notions the statements use *)


(** The membership test and default of [normalizeCategory], on a string that
    is already lower-cased and trimmed. *)
Definition classify (asString : string) : string :=
  if includes ALL_CATEGORIES asString then asString else "etc".

(** A raw value every field coercion accepts: [String(v)] completes, and [v]
    is not an invalid [Date]. *)
Definition coercible `{Runtime} (v : JsValue) : bool :=
  isOk (ToString v) &&
  match v with JsDate None => false | _ => true end.

(** The keys the normalisers read. *)
Definition metadataKeys : list string :=
  ["title"; "createdAt"; "date"; "updatedAt"; "category"; "description"; "tags"].

Definition coercibleData `{Runtime} (fm : list (string * JsValue)) : bool :=
  forallb (fun k => coercible (getProp fm k)) metadataKeys.

(** The raw values the two date fields are read from:
    [fm.createdAt ?? fm.date] and [fm.updatedAt ?? fm.createdAt ?? fm.date]. *)
Definition rawCreatedAt (fm : list (string * JsValue)) : JsValue :=
  getProp fm "createdAt" ?? getProp fm "date".

Definition rawUpdatedAt (fm : list (string * JsValue)) : JsValue :=
  getProp fm "updatedAt" ?? getProp fm "createdAt" ?? getProp fm "date".

(** The [description] and [tags] fields of both object literals. *)
Definition coerceDescription `{Runtime} (fm : list (string * JsValue))
  : Result (option string) :=
  if ToBoolean (getProp fm "description")
  then Some <$> ToString (getProp fm "description")
  else Ok None.

Definition coerceTags `{Runtime} (fm : list (string * JsValue))
  : Result (option (list string)) :=
  match getProp fm "tags" with
  | JsArray xs => Some <$> mapString xs
  | _ => Ok None
  end.

(** [fm] with its title replaced. *)
Definition withTitle (t : string) (fm : PostFrontMatter) : PostFrontMatter :=
  {| title := t; createdAt := createdAt fm; updatedAt := updatedAt fm;
     category := category fm; description := description fm; tags := tags fm |}.

(** The time value a post is sorted by. *)
Definition createdTime `{Runtime} (p : PostListItem) : option Z :=
  getTime (createdAt (frontMatter p)).

(** Every adjacent pair [(a, b)] has [a.createdAt >= b.createdAt] as time
    values. *)
Definition sortedByCreatedAtDesc `{Runtime} (posts : list PostListItem) : Prop :=
  forall (i : nat) (a b : PostListItem),
    posts !! i = Some a -> posts !! S i = Some b ->
    num_ge (createdTime a) (createdTime b) = true.

(** What the proofs ask of [Array.prototype.sort].  It rearranges the array;
    and when every answer of the comparator is true of a transitive relation
    [before] (a result [<= 0] for [(a, b)] only if [a] may stand before [b],
    a result [>= 0] only if [b] may stand before [a]), the array it leaves is
    ordered by [before].  A comparison sort places elements by the
    comparator's answers alone, so it has both properties. *)
Definition sort_permutes `{Runtime} : Prop :=
  forall (A : Type) (cmp : A -> A -> Z) (l : list A),
    Permutation l (Array_sort cmp l).

Definition sort_orders `{Runtime} : Prop :=
  forall (A : Type) (cmp : A -> A -> Z) (before : A -> A -> Prop) (l : list A),
    (forall a b c, before a b -> before b c -> before a c) ->
    (forall a b, In a l -> In b l ->
       (cmp a b <= 0 -> before a b) /\ (0 <= cmp a b -> before b a)) ->
    StronglySorted before (Array_sort cmp l).

(** A segment that [path.normalize] keeps. *)
Definition properSegment (s : string) : bool :=
  negb (String.eqb s "" || String.eqb s ".") && negb (String.eqb s "..").

(** A name as [readdir] gives them: one segment of a path, and neither of
    the two names every directory has. *)
Definition plainName (s : string) : bool :=
  negb (hasChar "/" s) && negb (hasChar "000" s)
  && negb (String.eqb s "") && negb (String.eqb s ".") && negb (String.eqb s "..").

(** A slug that is one segment of a path: it cannot lead into a
    sub-directory or out of the content directory. *)
Definition plainSlug (slug : string) : bool :=
  negb (hasChar "/" slug) && negb (hasChar "000" slug).

(** The entries of a directory as a file system holds them: under distinct
    names, each one segment. *)
Definition wellNamed (entries : list Dirent) : Prop :=
  List.NoDup (map name entries) /\
  List.Forall (fun e => plainName (name e) = true) entries.

(** The entry a name stands for in a directory, read as a file. *)
Definition readEntry (root : ContentRoot) (file : string) : Result FileText :=
  match root with
  | None => Throw (SystemError "ENOENT")
  | Some entries =>
      match find (fun e : Dirent => String.eqb (name e) file) entries with
      | Some e =>
          match kind e with
          | RegularFile text => Ok text
          | Directory _ => Throw (SystemError "EISDIR")
          end
      | None => Throw (SystemError "ENOENT")
      end
  end.

(** A file of the content directory is the document of [slug]. *)
Definition hasDocument (root : ContentRoot) (slug : string) : Prop :=
  exists entries e,
    root = Some entries /\ In e entries /\
    isFile e = true /\ name e = slug +:+ ".mdx".

(** The number of posts of a category in a listing. *)
Definition countCategory (c : string) (posts : list PostListItem) : nat :=
  length (List.filter (fun p => String.eqb (category (frontMatter p)) c) posts).

(** The evaluation of [extractText(node)] as a relation, one rule per
    [return] of the source; the array rule evaluates the callback of [map]
    on each element and joins the results. *)
Inductive ExtractsTo `{Runtime} : ReactNode -> string -> Prop :=
| ExtractUndefined : ExtractsTo RUndefined ""
| ExtractNull : ExtractsTo RNull ""
| ExtractString s : ExtractsTo (RString s) s
| ExtractNumber x : ExtractsTo (RNumber x) (Number_toString x)
| ExtractArray nodes texts :
    Forall2 ExtractsTo nodes texts ->
    ExtractsTo (RArray nodes) (String.concat "" texts)
| ExtractElement type children text :
    ExtractsTo children text ->
    ExtractsTo (RElement type children) text
| ExtractBool b : ExtractsTo (RBool b) ""
| ExtractOther : ExtractsTo ROther "".

(** ** Sample content directories *)

Definition document (file : string) (data : list (string * JsValue)) (body : string)
  : Dirent :=
  {| name := file;
     kind := RegularFile (Document data body) |}.

(** Three posts (one without a date, one dated by a YAML timestamp, one by a
    string and with a capitalised category), a sub-directory and a file that
    is no document. *)
Definition sampleRoot : ContentRoot :=
  Some [ document "b.mdx" [("title", JsString "B")] "body of b";
         document "hello.mdx"
           [("title", JsString "Hello World"); ("date", JsDate (Some 1709251200000))]
           "# Hello";
         {| name := "drafts"; kind := Directory [] |};
         document "notes.txt" [] "not a post";
         document "a.mdx"
           [("title", JsString "A"); ("date", JsString "2025-01-01");
            ("category", JsString "Frontend")]
           "text of a" ].

(** Two dated posts and, between them, one whose date does not parse. *)
Definition undatedRoot : ContentRoot :=
  Some [ document "old.mdx" [("date", JsString "2020-01-01")] "";
         document "draft.mdx" [("date", JsString "someday")] "";
         document "new.mdx" [("date", JsString "2024-03-01")] "" ].

(** ** The pages that call [utils.ts] *)

(** What a page function does before it builds its element: it calls
    [notFound()], which throws Next's not-found signal and ends the
    function; or an exception escapes it; or it goes on to render, from the
    data it has computed.  The model of a page stops at that data. *)
Inductive PageOutcome (A : Type) : Type :=
| Renders (data : A)
| NotFound
| Fails (e : JsError).

Arguments Renders {A} data.
Arguments NotFound {A}.
Arguments Fails {A} e.

(** [Home] of [app/page.tsx]: [allPosts.slice(0, 10)]. *)
Definition recentPosts `{Runtime} (root : ContentRoot) : Result (list PostListItem) :=
  allPosts ← listPosts root;
  Ok (firstn 10 allPosts).

(** The route [categories/[category]]. *)
Module CategoryRoute.

(** The [{ category }] objects, each by its one field. *)
Definition generateStaticParams : list string :=
  map (fun category => category) ALL_CATEGORIES.

Definition CategoryPage `{Runtime} (root : ContentRoot) (category : string)
  : PageOutcome (list PostListItem) :=
  if negb (isValidCategory category) then NotFound
  else
    match listPostsByCategory root category with
    | Ok posts => Renders posts
    | Throw e => Fails e
    end.

End CategoryRoute.

(** [Metadata], as far as the post route fills it. *)
Record Metadata : Type := {
  meta_title : string;
  meta_description : option string
}.

(** What [PostPage] computes before its [return]. *)
Record PostView : Type := {
  view_post : RenderedPost;
  view_createdDate : option Z;
  view_updatedDate : option Z;
  view_isUpdated : bool
}.

(** The route [posts/[slug]]. *)
Module PostRoute.

(** The [{ slug }] objects, each by its one field. *)
Definition generateStaticParams `{Runtime} (root : ContentRoot) : Result (list string) :=
  slugs ← getPostSlugs root;
  Ok (map (fun slug => slug) slugs).

(** The [try] returns the post's metadata; the [catch] swallows whatever
    was thrown. *)
Definition generateMetadata `{Runtime} (root : ContentRoot) (slug : string) : Metadata :=
  match getPostBySlug root slug with
  | Ok post =>
      {| meta_title := title (post_frontMatter post) +:+ " | MDX Blog";
         meta_description := description (post_frontMatter post) |}
  | Throw _ =>
      {| meta_title := "Post | MDX Blog"; meta_description := None |}
  end.

(** The [catch] of [PostPage] answers [notFound()] to every exception. *)
Definition PostPage `{Runtime} (root : ContentRoot) (slug : string) : PageOutcome PostView :=
  match getPostBySlug root slug with
  | Ok post =>
      Renders
        {| view_post := post;
           view_createdDate := Date_parse (createdAt (post_frontMatter post));
           view_updatedDate := Date_parse (updatedAt (post_frontMatter post));
           view_isUpdated :=
             negb (String.eqb (updatedAt (post_frontMatter post))
                              (createdAt (post_frontMatter post))) |}
  | Throw _ => NotFound
  end.

End PostRoute.

(** ** [next.config.ts] *)

Module NextConfig.

(** The two variables of [process.env] the file reads; [None] when unset. *)
Record Env : Type := {
  GITHUB_ACTIONS : option string;
  GITHUB_REPOSITORY : option string
}.

Definition isGithubActions (env : Env) : bool :=
  match GITHUB_ACTIONS env with
  | Some v => String.eqb v "true"
  | None => false
  end.

(** [process.env.GITHUB_REPOSITORY?.split("/")[1] ?? ""] *)
Definition repoSlug (env : Env) : string :=
  match GITHUB_REPOSITORY env with
  | Some repository =>
      match nth_error (String_split "/" repository) 1 with
      | Some part => part
      | None => ""
      end
  | None => ""
  end.

Definition isUserOrOrgSite (env : Env) : bool :=
  endsWith (repoSlug env) ".github.io".

Definition repoBasePath (env : Env) : string :=
  if isGithubActions env && negb (isUserOrOrgSite env)
     && negb (String.eqb (repoSlug env) "")
  then "/" +:+ repoSlug env
  else "".

(** [repoBasePath || undefined] *)
Definition basePath (env : Env) : option string :=
  if negb (String.eqb (repoBasePath env) "") then Some (repoBasePath env) else None.

(** [repoBasePath ? `${repoBasePath}/` : undefined] *)
Definition assetPrefix (env : Env) : option string :=
  if negb (String.eqb (repoBasePath env) "") then Some (repoBasePath env +:+ "/")
  else None.

End NextConfig.

(** ** [CodeBlock]: the text the copy button writes *)

(** [extractText(children).trim()] *)
Definition codeText `{Runtime} (children : ReactNode) : string :=
  String_trim (extractText children).

(** A node that [extractText] reads as empty whatever surrounds it: nullish,
    a boolean, or of another shape. *)
Definition isBlankNode (node : ReactNode) : bool :=
  match node with
  | RUndefined | RNull | RBool _ | ROther => true
  | _ => false
  end.

(** A line feed. *)
Definition LF : string := String "010"%char "".

(** A content directory with a document, a document whose metadata block
    does not parse ([cached]: whether gray-matter has met its text), and a
    sub-directory that holds a document of its own. *)
Definition nestedDir (cached : bool) : ContentRoot :=
  Some [ document "top.mdx" [("title", JsString "Top")] "top";
         {| name := "broken.mdx";
            kind := RegularFile
                      (Malformed ("---" +:+ LF +:+ "title: [" +:+ LF +:+ "---" +:+ LF +:+ "body")
                                 YAMLException cached) |};
         {| name := "sub";
            kind := Directory
                      [ document "inner.mdx" [("title", JsString "Inner")] "inner" ] |} ].

Definition nestedRoot : ContentRoot := nestedDir false.

(** A directory whose second document has a category that cannot be
    coerced and whose third has an invalid date. *)
Definition brokenRoot : ContentRoot :=
  Some [ document "a.mdx" [("title", JsString "A")] "fine";
         document "bad.mdx" [("category", JsObject [("toString", JsString "x")])] "";
         document "worse.mdx" [("date", JsDate None)] "" ].

(** * Theorems *)

(** ** The exception monad *)

Lemma bind_Ok {A B} (m : Result A) (f : A -> Result B) (b : B) :
  (m ≫= f) = Ok b <-> exists a, m = Ok a /\ f a = Ok b.
Proof.
  destruct m as [a|e]; simpl; split.
  - intros Hf. exists a. split; [reflexivity | exact Hf].
  - intros (a' & Ha & Hf). injection Ha as <-. exact Hf.
  - discriminate.
  - intros (a' & Ha & _). discriminate.
Qed.

Lemma fmap_Ok {A B} (m : Result A) (f : A -> B) (b : B) :
  f <$> m = Ok b <-> exists a, m = Ok a /\ b = f a.
Proof.
  destruct m as [a|e]; simpl; split.
  - intros [= <-]. eauto.
  - intros (a' & [= <-] & ->). reflexivity.
  - discriminate.
  - intros (a' & Ha & _). discriminate.
Qed.

Lemma isOk_true {A} (m : Result A) : isOk m = true <-> exists a, m = Ok a.
Proof.
  destruct m; simpl; split; eauto; try discriminate.
  intros (a & Ha). discriminate.
Qed.

Lemma mapM_Ok_Forall2 {A B} (f : A -> Result B) (l : list A) (ys : list B) :
  mapM f l = Ok ys <-> Forall2 (fun x y => f x = Ok y) l ys.
Proof.
  revert ys. induction l as [|x l IH]; intros ys; simpl.
  - split.
    + intros [= <-]. constructor.
    + intros Hall. inversion Hall. reflexivity.
  - split.
    + intros Hm. apply bind_Ok in Hm as (y & Hy & Hm).
      apply bind_Ok in Hm as (k & Hk & Hm). injection Hm as <-.
      constructor; [exact Hy | apply IH, Hk].
    + intros Hall. inversion Hall as [|x' y l' k Hy Hk]; subst.
      rewrite Hy. simpl. apply IH in Hk. rewrite Hk. reflexivity.
Qed.

Lemma mapM_Ok_length {A B} (f : A -> Result B) (l : list A) (ys : list B) :
  mapM f l = Ok ys -> length ys = length l.
Proof.
  intros Hm. apply mapM_Ok_Forall2 in Hm.
  symmetry. eapply Forall2_length, Hm.
Qed.

(** ** [normalizeCategory] *)

Lemma classify_member (s : string) : In (classify s) ALL_CATEGORIES.
Proof.
  unfold classify, includes.
  destruct (existsb (String.eqb s) ALL_CATEGORIES) eqn:Hin.
  - apply existsb_exists in Hin as (c & Hc & Heq).
    apply String.eqb_eq in Heq. subst c. exact Hc.
  - simpl. auto.
Qed.

Lemma classify_fixes_members (s : string) :
  In s ALL_CATEGORIES -> classify s = s.
Proof.
  intros Hin. unfold classify, includes.
  destruct (existsb (String.eqb s) ALL_CATEGORIES) eqn:Hex; [reflexivity|].
  assert (existsb (String.eqb s) ALL_CATEGORIES = true) as Htrue.
  { apply existsb_exists. exists s. split; [exact Hin | apply String.eqb_refl]. }
  congruence.
Qed.

Lemma normalizeCategory_falsy `{Runtime} (value : JsValue) :
  ToBoolean value = false -> normalizeCategory value = Ok "etc".
Proof. intros Hf. unfold normalizeCategory. rewrite Hf. reflexivity. Qed.

Lemma normalizeCategory_truthy `{Runtime} (value : JsValue) :
  ToBoolean value = true ->
  normalizeCategory value =
    s ← ToString value; Ok (classify (String_trim (String_toLowerCase s))).
Proof. intros Ht. unfold normalizeCategory. rewrite Ht. reflexivity. Qed.

Lemma normalizeCategory_member `{Runtime} (value : JsValue) (c : string) :
  normalizeCategory value = Ok c -> In c ALL_CATEGORIES.
Proof.
  destruct (ToBoolean value) eqn:Hb.
  - rewrite normalizeCategory_truthy by exact Hb.
    intros Hc. apply bind_Ok in Hc as (s & _ & Hc).
    injection Hc as <-. apply classify_member.
  - rewrite normalizeCategory_falsy by exact Hb.
    intros [= <-]. simpl. auto.
Qed.

Lemma normalizeCategory_returns `{Runtime} (value : JsValue) (s : string) :
  ToString value = Ok s ->
  exists c, normalizeCategory value = Ok c /\ In c ALL_CATEGORIES.
Proof.
  intros Hs. destruct (ToBoolean value) eqn:Hb.
  - rewrite normalizeCategory_truthy by exact Hb. rewrite Hs. simpl.
    eexists. split; [reflexivity | apply classify_member].
  - rewrite normalizeCategory_falsy by exact Hb.
    exists "etc". split; [reflexivity | simpl; auto].
Qed.

(** Where the coercion completes: [normalizeCategory] answers "etc" when
    the value is absent (or otherwise falsy), and else coerces the value to a
    string, lower-cases and trims it, and returns that string exactly when it
    is one of frontend, backend, infra, etc, and "etc" otherwise.  Whenever
    the coercion to a string completes the function returns, and what it
    returns is always a member of the enumeration. *)
Theorem normalizeCategory_spec `{Runtime} (value : JsValue) :
  (ToBoolean value = false -> normalizeCategory value = Ok "etc") /\
  (ToBoolean value = true ->
   normalizeCategory value =
     s ← ToString value;
     let asString := String_trim (String_toLowerCase s) in
     Ok (if includes ALL_CATEGORIES asString then asString else "etc")) /\
  (forall s, ToString value = Ok s ->
     exists c, normalizeCategory value = Ok c /\ In c ALL_CATEGORIES) /\
  (forall c, normalizeCategory value = Ok c -> In c ALL_CATEGORIES).
Proof.
  split; [apply normalizeCategory_falsy|].
  split; [apply normalizeCategory_truthy|].
  split; [apply normalizeCategory_returns | apply normalizeCategory_member].
Qed.

(** C4.  [normalizeCategory] does not give a category to a value of any
    type.  An object that carries an own [toString] property which is not a
    function (front matter [category: { toString: x }]) is truthy, so it
    reaches [String(value)], which raises a [TypeError]; the exception
    leaves [normalizeCategory], and with it both normalisers, where the
    claim and the comment of the source promise "etc".  That is the one way
    it fails: [normalizeCategory] throws exactly when the value is truthy
    and its coercion to a string throws, with that exception, and in every
    other case it returns a member of the enumeration. *)
Theorem normalizeCategory_raises `{Runtime} :
  normalizeCategory (JsObject [("toString", JsString "x")]) = Throw TypeError /\
  normalized_getPostBySlug "a" [("category", JsObject [("toString", JsString "x")])]
  = Throw TypeError /\
  (forall value e,
     normalizeCategory value = Throw e <->
     ToBoolean value = true /\ ToString value = Throw e) /\
  (forall value,
     (exists e, normalizeCategory value = Throw e) \/
     (exists c, normalizeCategory value = Ok c /\ In c ALL_CATEGORIES)).
Proof.
  assert (forall value e,
            normalizeCategory value = Throw e <->
            ToBoolean value = true /\ ToString value = Throw e) as Hthrows.
  { intros value e. destruct (ToBoolean value) eqn:Hb.
    - rewrite normalizeCategory_truthy by exact Hb.
      destruct (ToString value) as [s|e']; simpl.
      + split; [discriminate | intros [_ [=]]].
      + split; [intros [= ->]; auto | intros [_ [= ->]]; reflexivity].
    - rewrite normalizeCategory_falsy by exact Hb.
      split; [discriminate | intros [[=] _]]. }
  split; [reflexivity|]. split; [reflexivity|]. split; [exact Hthrows|].
  intros value. destruct (normalizeCategory value) as [c|e] eqn:Hn.
  - right. exists c. split; [reflexivity|]. eapply normalizeCategory_member, Hn.
  - left. eauto.
Qed.

(** ** [normalizeDateToISO] *)

Lemma isoFormat_epoch : isoFormat 0 = "1970-01-01T00:00:00.000Z".
Proof. reflexivity. Qed.

Lemma normalizeDateToISO_falsy `{Runtime} (value : JsValue) :
  ToBoolean value = false ->
  normalizeDateToISO value = Ok "1970-01-01T00:00:00.000Z".
Proof. intros Hf. unfold normalizeDateToISO. rewrite Hf. reflexivity. Qed.

Lemma normalizeDateToISO_Date `{Runtime} (tv : option Z) :
  normalizeDateToISO (JsDate tv) = toISOString tv.
Proof. reflexivity. Qed.

Lemma normalizeDateToISO_other `{Runtime} (value : JsValue) (asString : string) :
  ToBoolean value = true -> instanceofDate value = false ->
  ToString value = Ok asString ->
  normalizeDateToISO value =
    Ok (match Date_parse asString with
        | Some t => isoFormat t
        | None => asString
        end).
Proof.
  intros Ht Hd Hs. unfold normalizeDateToISO. rewrite Ht. simpl.
  destruct value; try discriminate Hd; rewrite Hs; simpl;
    destruct (Date_parse asString); reflexivity.
Qed.

Lemma normalizeDateToISO_coercible `{Runtime} (value : JsValue) :
  coercible value = true -> exists s, normalizeDateToISO value = Ok s.
Proof.
  unfold coercible. intros Hc. apply andb_true_iff in Hc as [Hs Hd].
  apply isOk_true in Hs as (s & Hs).
  destruct (ToBoolean value) eqn:Hb.
  - destruct (instanceofDate value) eqn:Hi.
    + destruct value as [| | | | |[t|]| |]; try discriminate.
      rewrite normalizeDateToISO_Date. simpl. eauto.
    + erewrite normalizeDateToISO_other by eassumption. eauto.
  - rewrite normalizeDateToISO_falsy by exact Hb. eauto.
Qed.

(** ** The two object literals *)

Lemma normalized_listPosts_Ok `{Runtime} (fm : list (string * JsValue)) (r : PostFrontMatter) :
  normalized_listPosts fm = Ok r <->
  ToString (getProp fm "title" ?? JsString "Untitled") = Ok (title r) /\
  normalizeDateToISO (rawCreatedAt fm) = Ok (createdAt r) /\
  normalizeDateToISO (rawUpdatedAt fm) = Ok (updatedAt r) /\
  normalizeCategory (getProp fm "category") = Ok (category r) /\
  coerceDescription fm = Ok (description r) /\
  coerceTags fm = Ok (tags r).
Proof.
  unfold normalized_listPosts.
  fold (rawCreatedAt fm) (rawUpdatedAt fm) (coerceDescription fm) (coerceTags fm).
  split.
  - intros Hn.
    apply bind_Ok in Hn as (t & Ht & Hn). apply bind_Ok in Hn as (c & Hc & Hn).
    apply bind_Ok in Hn as (u & Hu & Hn). apply bind_Ok in Hn as (k & Hk & Hn).
    apply bind_Ok in Hn as (d & Hd & Hn). apply bind_Ok in Hn as (g & Hg & Hn).
    injection Hn as <-. simpl. auto 10.
  - intros (Ht & Hc & Hu & Hk & Hd & Hg).
    rewrite Ht, Hc, Hu, Hk, Hd, Hg. destruct r; reflexivity.
Qed.

Lemma normalized_getPostBySlug_Ok `{Runtime} (slug : string)
    (fm : list (string * JsValue)) (r : PostFrontMatter) :
  normalized_getPostBySlug slug fm = Ok r <->
  ToString (getProp fm "title" ?? JsString slug) = Ok (title r) /\
  normalizeDateToISO (rawCreatedAt fm) = Ok (createdAt r) /\
  normalizeDateToISO (rawUpdatedAt fm) = Ok (updatedAt r) /\
  normalizeCategory (getProp fm "category") = Ok (category r) /\
  coerceDescription fm = Ok (description r) /\
  coerceTags fm = Ok (tags r).
Proof.
  unfold normalized_getPostBySlug.
  fold (rawCreatedAt fm) (rawUpdatedAt fm) (coerceDescription fm) (coerceTags fm).
  split.
  - intros Hn.
    apply bind_Ok in Hn as (t & Ht & Hn). apply bind_Ok in Hn as (c & Hc & Hn).
    apply bind_Ok in Hn as (u & Hu & Hn). apply bind_Ok in Hn as (k & Hk & Hn).
    apply bind_Ok in Hn as (d & Hd & Hn). apply bind_Ok in Hn as (g & Hg & Hn).
    injection Hn as <-. simpl. auto 10.
  - intros (Ht & Hc & Hu & Hk & Hd & Hg).
    rewrite Ht, Hc, Hu, Hk, Hd, Hg. destruct r; reflexivity.
Qed.

(** The title expression [String(fm.title ?? fallback)]. *)
Lemma title_missing `{Runtime} (fm : list (string * JsValue)) (fallback : string) :
  isNullish (getProp fm "title") = true ->
  ToString (getProp fm "title" ?? JsString fallback) = Ok fallback.
Proof. intros Hn. unfold nullish. rewrite Hn. reflexivity. Qed.

Lemma title_present `{Runtime} (fm : list (string * JsValue)) (fallback : string) :
  isNullish (getProp fm "title") = false ->
  ToString (getProp fm "title" ?? JsString fallback) = ToString (getProp fm "title").
Proof. intros Hn. unfold nullish. rewrite Hn. reflexivity. Qed.

(** *** Where the coercions complete *)

Lemma mapM_Ok_exists {A B} (f : A -> Result B) (l : list A) :
  Forall (fun x => exists y, f x = Ok y) l -> exists ys, mapM f l = Ok ys.
Proof.
  induction 1 as [|x l (y & Hy) _ (ys & Hys)]; simpl.
  - eexists. reflexivity.
  - rewrite Hy. simpl. rewrite Hys. simpl. eexists. reflexivity.
Qed.

Lemma ToString_nullish `{Runtime} (v : JsValue) :
  isNullish v = true -> exists s, ToString v = Ok s.
Proof. destruct v; try discriminate; simpl; eauto. Qed.

Lemma ToString_array_elements `{Runtime} (xs : list JsValue) (s : string) :
  ToString (JsArray xs) = Ok s -> exists l, mapString xs = Ok l.
Proof.
  simpl. intros Hs. apply bind_Ok in Hs as (parts & Hparts & _).
  apply mapM_Ok_Forall2 in Hparts. apply mapM_Ok_exists.
  induction Hparts as [|x part xs parts Hx _ IH]; constructor; [|exact IH].
  destruct (isNullish x) eqn:Hn; [apply ToString_nullish, Hn | eauto].
Qed.

Lemma coercible_ToString `{Runtime} (v : JsValue) :
  coercible v = true -> exists s, ToString v = Ok s.
Proof.
  unfold coercible. intros Hc. apply andb_true_iff in Hc as [Hs _].
  apply isOk_true, Hs.
Qed.

Lemma coercible_nullish `{Runtime} (a b : JsValue) :
  coercible a = true -> coercible b = true -> coercible (a ?? b) = true.
Proof. intros Ha Hb. unfold nullish. destruct (isNullish a); assumption. Qed.

Lemma coercibleData_key `{Runtime} (fm : list (string * JsValue)) (k : string) :
  coercibleData fm = true -> In k metadataKeys -> coercible (getProp fm k) = true.
Proof.
  unfold coercibleData. rewrite forallb_forall. intros Hall Hk. apply Hall, Hk.
Qed.

Lemma coerceDescription_coercible `{Runtime} (fm : list (string * JsValue)) :
  coercibleData fm = true -> exists d, coerceDescription fm = Ok d.
Proof.
  intros Hc. unfold coerceDescription.
  destruct (ToBoolean (getProp fm "description")); [|eauto].
  destruct (coercible_ToString (getProp fm "description")) as (s & Hs).
  { apply coercibleData_key; [exact Hc | simpl; auto 10]. }
  rewrite Hs. simpl. eauto.
Qed.

Lemma coerceTags_coercible `{Runtime} (fm : list (string * JsValue)) :
  coercibleData fm = true -> exists g, coerceTags fm = Ok g.
Proof.
  intros Hc. unfold coerceTags.
  destruct (coercible_ToString (getProp fm "tags")) as (s & Hs).
  { apply coercibleData_key; [exact Hc | simpl; auto 10]. }
  destruct (getProp fm "tags") as [| | | | | |xs|]; eauto.
  apply ToString_array_elements in Hs as (l & Hl). rewrite Hl. simpl. eauto.
Qed.

Lemma normalized_total `{Runtime} (fm : list (string * JsValue)) (fallback : string) :
  coercibleData fm = true ->
  exists t c u k d g,
    ToString (getProp fm "title" ?? JsString fallback) = Ok t /\
    normalizeDateToISO (rawCreatedAt fm) = Ok c /\
    normalizeDateToISO (rawUpdatedAt fm) = Ok u /\
    (normalizeCategory (getProp fm "category") = Ok k /\ In k ALL_CATEGORIES) /\
    coerceDescription fm = Ok d /\
    coerceTags fm = Ok g.
Proof.
  intros Hc.
  assert (forall k, In k metadataKeys -> coercible (getProp fm k) = true) as Hkey.
  { intros k. apply coercibleData_key, Hc. }
  destruct (coercible_ToString (getProp fm "title" ?? JsString fallback)) as (t & Ht).
  { apply coercible_nullish; [apply Hkey; simpl; auto 10 | reflexivity]. }
  destruct (normalizeDateToISO_coercible (rawCreatedAt fm)) as (c & Hcr).
  { apply coercible_nullish; apply Hkey; simpl; auto 10. }
  destruct (normalizeDateToISO_coercible (rawUpdatedAt fm)) as (u & Hu).
  { repeat apply coercible_nullish; apply Hkey; simpl; auto 10. }
  destruct (coercible_ToString (getProp fm "category")) as (s & Hs).
  { apply Hkey; simpl; auto 10. }
  destruct (normalizeCategory_returns _ _ Hs) as (k & Hk).
  destruct (coerceDescription_coercible fm Hc) as (d & Hd).
  destruct (coerceTags_coercible fm Hc) as (g & Hg).
  exists t, c, u, k, d, g. auto 10.
Qed.

Lemma normalized_listPosts_total `{Runtime} (fm : list (string * JsValue)) :
  coercibleData fm = true -> exists r, normalized_listPosts fm = Ok r.
Proof.
  intros Hc.
  destruct (normalized_total fm "Untitled" Hc)
    as (t & c & u & k & d & g & Ht & Hcr & Hu & (Hk & _) & Hd & Hg).
  exists {| title := t; createdAt := c; updatedAt := u; category := k;
            description := d; tags := g |}.
  apply normalized_listPosts_Ok. simpl. auto 10.
Qed.

Lemma normalized_getPostBySlug_total `{Runtime} (slug : string)
    (fm : list (string * JsValue)) :
  coercibleData fm = true -> exists r, normalized_getPostBySlug slug fm = Ok r.
Proof.
  intros Hc.
  destruct (normalized_total fm slug Hc)
    as (t & c & u & k & d & g & Ht & Hcr & Hu & (Hk & _) & Hd & Hg).
  exists {| title := t; createdAt := c; updatedAt := u; category := k;
            description := d; tags := g |}.
  apply normalized_getPostBySlug_Ok. simpl. auto 10.
Qed.

(** ** The claims about the normaliser *)

(** A capitalised, padded category and an absent one. *)
Lemma normalizeCategory_spec_witness :
  normalizeCategory (JsString "  Frontend ") = Ok "frontend" /\
  normalizeCategory JsUndefined = Ok "etc" /\
  In "frontend" ALL_CATEGORIES.
Proof.
  destruct (normalizeCategory_spec (JsString "  Frontend "))
    as (_ & Htruthy & _ & Hmember).
  destruct (normalizeCategory_spec JsUndefined) as (Hfalsy & _).
  split; [rewrite Htruthy by reflexivity; reflexivity|].
  split; [apply Hfalsy; reflexivity|].
  apply Hmember. rewrite Htruthy by reflexivity. reflexivity.
Defined.




(** C2, as stated, fails: a date that is present but does not parse comes
    back as written, not as the zero epoch. *)
Lemma unparseable_createdAt_kept :
  Date_parse "hello" = None /\
  createdAt <$> normalized_listPosts [("date", JsString "hello")] = Ok "hello" /\
  createdAt <$> normalized_getPostBySlug "a" [("date", JsString "hello")] = Ok "hello" /\
  "hello" <> "1970-01-01T00:00:00.000Z".
Proof. repeat split. discriminate. Qed.

(** C2 (amended).  On both paths the normalised createdAt is the zero-epoch
    timestamp when the raw [createdAt ?? date] is missing (or otherwise
    falsy), and is the raw value's string form, unchanged, when that value is
    present, is no [Date], and does not parse as a date. *)
Theorem createdAt_missing_or_unparseable `{Runtime}
    (fm : list (string * JsValue)) (slug : string) :
  coercibleData fm = true ->
  exists a b,
    normalized_listPosts fm = Ok a /\
    normalized_getPostBySlug slug fm = Ok b /\
    createdAt b = createdAt a /\
    (ToBoolean (rawCreatedAt fm) = false ->
     createdAt a = "1970-01-01T00:00:00.000Z") /\
    (forall s,
       ToBoolean (rawCreatedAt fm) = true ->
       instanceofDate (rawCreatedAt fm) = false ->
       ToString (rawCreatedAt fm) = Ok s -> Date_parse s = None ->
       createdAt a = s).
Proof.
  intros Hco.
  destruct (normalized_listPosts_total fm Hco) as (a & Ha).
  destruct (normalized_getPostBySlug_total slug fm Hco) as (b & Hb).
  exists a, b. split; [exact Ha|]. split; [exact Hb|].
  apply normalized_listPosts_Ok in Ha as (_ & Hca & _).
  apply normalized_getPostBySlug_Ok in Hb as (_ & Hcb & _).
  split; [congruence|]. split.
  - intros Hf. rewrite normalizeDateToISO_falsy in Hca by exact Hf. congruence.
  - intros s Ht Hd Hs Hp.
    rewrite (normalizeDateToISO_other _ s Ht Hd Hs), Hp in Hca. congruence.
Qed.

(** A document whose date does not parse. *)
Lemma createdAt_missing_or_unparseable_witness :
  coercibleData [("date", JsString "hello")] = true /\
  exists a b,
    normalized_listPosts [("date", JsString "hello")] = Ok a /\
    normalized_getPostBySlug "a" [("date", JsString "hello")] = Ok b /\
    createdAt b = createdAt a /\ createdAt a = "hello".
Proof.
  split; [reflexivity|].
  destruct (createdAt_missing_or_unparseable [("date", JsString "hello")] "a")
    as (a & b & Ha & Hb & Hab & _ & Hkept); [reflexivity|].
  exists a, b. repeat split; try assumption.
  apply Hkept; reflexivity.
Defined.

(** C3.  The coercions are not total.  [normalizeDateToISO] calls
    [toISOString] on a [Date] without the NaN test its string branch makes,
    so an invalid [Date] raises a [RangeError]; and [String(...)] raises a
    [TypeError] on an object that carries its own [toString] property, which
    takes every field coercion, and with it both normalisers, down. *)
Theorem field_coercions_raise `{Runtime} :
  normalizeDateToISO (JsDate None) = Throw RangeError /\
  normalizeCategory (JsObject [("toString", JsString "x")]) = Throw TypeError /\
  normalized_listPosts
    [("category", JsObject [("toString", JsString "x")])] = Throw TypeError /\
  normalized_getPostBySlug "a"
    [("title", JsObject [("toString", JsString "x")])] = Throw TypeError /\
  normalized_listPosts [("tags", JsArray [JsObject [("toString", JsString "x")]])]
    = Throw TypeError /\
  normalized_listPosts [("date", JsDate None)] = Throw RangeError.
Proof. repeat split. Qed.

(** C6, as stated, fails: an empty title is present, so [??] keeps it, and
    the normalised title is the empty string on both paths; so is the title
    of an empty array. *)
Lemma empty_title_kept :
  title <$> normalized_listPosts [("title", JsString "")] = Ok "" /\
  title <$> normalized_getPostBySlug "hello" [("title", JsString "")] = Ok "" /\
  title <$> normalized_listPosts [("title", JsArray [])] = Ok "".
Proof. repeat split. Qed.

(** C6 (amended).  When the raw title is missing (undefined or null) the
    normalised title is the literal "Untitled" on the listing path and the
    slug on the single-document path; when it is present the title is its
    string form on both paths.  So the title is non-empty whenever the raw
    title is missing or is a non-empty string, given on the single-document
    path that the slug is non-empty. *)
Theorem title_fallback `{Runtime} (fm : list (string * JsValue)) (slug : string) :
  coercibleData fm = true ->
  exists a b,
    normalized_listPosts fm = Ok a /\
    normalized_getPostBySlug slug fm = Ok b /\
    (isNullish (getProp fm "title") = true ->
     title a = "Untitled" /\ title b = slug) /\
    (isNullish (getProp fm "title") = false ->
     ToString (getProp fm "title") = Ok (title a) /\ title b = title a) /\
    (isNullish (getProp fm "title") = true \/
     (exists s, getProp fm "title" = JsString s /\ s <> "") ->
     title a <> "" /\ (slug <> "" -> title b <> "")).
Proof.
  intros Hco.
  destruct (normalized_listPosts_total fm Hco) as (a & Ha).
  destruct (normalized_getPostBySlug_total slug fm Hco) as (b & Hb).
  exists a, b. split; [exact Ha|]. split; [exact Hb|].
  apply normalized_listPosts_Ok in Ha as (Hta & _).
  apply normalized_getPostBySlug_Ok in Hb as (Htb & _).
  assert (isNullish (getProp fm "title") = true ->
          title a = "Untitled" /\ title b = slug) as Hmissing.
  { intros Hn. rewrite title_missing in Hta, Htb by exact Hn.
    split; congruence. }
  assert (isNullish (getProp fm "title") = false ->
          ToString (getProp fm "title") = Ok (title a) /\ title b = title a)
    as Hpresent.
  { intros Hn. rewrite title_present in Hta, Htb by exact Hn.
    split; congruence. }
  split; [exact Hmissing|]. split; [exact Hpresent|].
  intros [Hn | (s & Hs & Hne)].
  - destruct (Hmissing Hn) as [-> ->]. split; [discriminate | auto].
  - destruct Hpresent as [Hstr ->]; [rewrite Hs; reflexivity|].
    rewrite Hs in Hstr. simpl in Hstr. injection Hstr as <-. auto.
Qed.

(** A document without a title. *)
Lemma title_fallback_witness :
  coercibleData [("date", JsString "2024-03-01")] = true /\
  exists a b,
    normalized_listPosts [("date", JsString "2024-03-01")] = Ok a /\
    normalized_getPostBySlug "hello" [("date", JsString "2024-03-01")] = Ok b /\
    title a = "Untitled" /\ title b = "hello" /\ title a <> "" /\ title b <> "".
Proof.
  split; [reflexivity|].
  destruct (title_fallback [("date", JsString "2024-03-01")] "hello")
    as (a & b & Ha & Hb & Hmissing & _ & Hnonempty); [reflexivity|].
  exists a, b.
  destruct Hmissing as [Hta Htb]; [reflexivity|].
  destruct Hnonempty as [Hna Hnb]; [left; reflexivity|].
  repeat split; try assumption. apply Hnb. discriminate.
Defined.

(** C10.  On every raw metadata mapping the object literal of
    [getPostBySlug] is the one of [listPosts] with, when the raw title is
    missing, the title replaced by the slug: both complete or both raise the
    same exception, their createdAt, updatedAt, category, description and
    tags are equal, their titles are equal when the raw title is present, and
    when it is missing the titles are "Untitled" and the slug. *)
Theorem normalizers_agree `{Runtime} (fm : list (string * JsValue)) (slug : string) :
  normalized_getPostBySlug slug fm =
    (fun r => if isNullish (getProp fm "title") then withTitle slug r else r)
      <$> normalized_listPosts fm /\
  (isNullish (getProp fm "title") = false ->
   normalized_getPostBySlug slug fm = normalized_listPosts fm) /\
  (forall a, normalized_listPosts fm = Ok a ->
     exists b, normalized_getPostBySlug slug fm = Ok b /\
       createdAt b = createdAt a /\ updatedAt b = updatedAt a /\
       category b = category a /\ description b = description a /\
       tags b = tags a /\
       (isNullish (getProp fm "title") = false -> title b = title a) /\
       (isNullish (getProp fm "title") = true ->
        title a = "Untitled" /\ title b = slug)) /\
  (forall e, normalized_listPosts fm = Throw e <->
             normalized_getPostBySlug slug fm = Throw e).
Proof.
  assert (normalized_getPostBySlug slug fm =
            (fun r => if isNullish (getProp fm "title") then withTitle slug r else r)
              <$> normalized_listPosts fm) as Heq.
  { unfold normalized_getPostBySlug, normalized_listPosts.
    fold (rawCreatedAt fm) (rawUpdatedAt fm) (coerceDescription fm) (coerceTags fm).
    destruct (isNullish (getProp fm "title")) eqn:Hn.
    - rewrite !title_missing by exact Hn. simpl.
      destruct (normalizeDateToISO (rawCreatedAt fm)); [|reflexivity]. simpl.
      destruct (normalizeDateToISO (rawUpdatedAt fm)); [|reflexivity]. simpl.
      destruct (normalizeCategory _); [|reflexivity]. simpl.
      destruct (coerceDescription fm); [|reflexivity]. simpl.
      destruct (coerceTags fm); reflexivity.
    - rewrite !title_present by exact Hn.
      destruct (ToString (getProp fm "title")); [|reflexivity]. simpl.
      destruct (normalizeDateToISO (rawCreatedAt fm)); [|reflexivity]. simpl.
      destruct (normalizeDateToISO (rawUpdatedAt fm)); [|reflexivity]. simpl.
      destruct (normalizeCategory _); [|reflexivity]. simpl.
      destruct (coerceDescription fm); [|reflexivity]. simpl.
      destruct (coerceTags fm); reflexivity. }
  split; [exact Heq|]. split; [|split].
  - intros Hn. rewrite Heq, Hn. destruct (normalized_listPosts fm); reflexivity.
  - intros a Ha. rewrite Heq, Ha. simpl.
    destruct (isNullish (getProp fm "title")) eqn:Hn.
    + exists (withTitle slug a). simpl. repeat split; try discriminate.
      apply normalized_listPosts_Ok in Ha as (Hta & _).
      rewrite title_missing in Hta by exact Hn. congruence.
    + exists a. repeat split; discriminate.
  - intros e. rewrite Heq.
    destruct (normalized_listPosts fm); simpl; split; congruence.
Qed.

(** A document with a title, and one without. *)
Lemma normalizers_agree_witness :
  normalized_listPosts [("title", JsString "Hello World"); ("category", JsString "Frontend")]
  = normalized_getPostBySlug "hello"
      [("title", JsString "Hello World"); ("category", JsString "Frontend")] /\
  exists a b,
    normalized_listPosts [("category", JsString "infra")] = Ok a /\
    normalized_getPostBySlug "hello" [("category", JsString "infra")] = Ok b /\
    category b = category a /\ title a = "Untitled" /\ title b = "hello".
Proof.
  split.
  - symmetry. apply normalizers_agree. reflexivity.
  - destruct (normalizers_agree [("category", JsString "infra")] "hello")
      as (_ & _ & Hfields & _).
    destruct (Hfields (withTitle "Untitled"
                {| title := ""; createdAt := "1970-01-01T00:00:00.000Z";
                   updatedAt := "1970-01-01T00:00:00.000Z"; category := "infra";
                   description := None; tags := None |}))
      as (b & Hb & _ & _ & Hk & _ & _ & _ & Htitles); [reflexivity|].
    destruct Htitles as [Hta Htb]; [reflexivity|].
    eexists _, b. split; [reflexivity|]. auto.
Defined.

(** ** The reference sort meets what is asked of [Array.prototype.sort] *)

Section InsertionSort.
Variable A : Type.
Variable cmp : A -> A -> Z.

Lemma Ref_insert_perm (x : A) (l : list A) :
  Permutation (x :: l) (Ref.insert cmp x l).
Proof.
  induction l as [|y l IH]; simpl; [reflexivity|].
  destruct (cmp x y <=? 0); [reflexivity|].
  rewrite perm_swap. apply perm_skip, IH.
Qed.

Lemma Ref_sort_perm (l : list A) : Permutation l (Ref.Array_sort A cmp l).
Proof.
  induction l as [|x l IH]; simpl; [reflexivity|].
  rewrite <- Ref_insert_perm. apply perm_skip, IH.
Qed.

Variable before : A -> A -> Prop.
Variable dom : A -> Prop.
Hypothesis before_trans : forall a b c, before a b -> before b c -> before a c.
Hypothesis cmp_truthful : forall a b, dom a -> dom b ->
  (cmp a b <= 0 -> before a b) /\ (0 <= cmp a b -> before b a).

Lemma Ref_insert_sorted (x : A) (l : list A) :
  dom x -> Forall dom l ->
  StronglySorted before l -> StronglySorted before (Ref.insert cmp x l).
Proof using before_trans cmp_truthful.
  intros Hx Hdom Hsorted.
  induction Hsorted as [|y l Hl IH Hy]; simpl.
  - repeat constructor.
  - inversion Hdom as [|? ? Hdy Hdl]; subst.
    destruct (cmp_truthful x y Hx Hdy) as [Hle Hge].
    destruct (cmp x y <=? 0) eqn:Hc.
    + apply Z.leb_le in Hc.
      constructor; [constructor; assumption|].
      constructor; [apply Hle, Hc|].
      eapply Forall_impl; [exact Hy|].
      intros z Hz. eapply before_trans; [apply Hle, Hc | exact Hz].
    + apply Z.leb_gt in Hc.
      constructor; [apply IH, Hdl|].
      eapply Permutation_Forall; [apply Ref_insert_perm|].
      constructor; [apply Hge; lia | exact Hy].
Qed.

Lemma Ref_sort_sorted (l : list A) :
  Forall dom l -> StronglySorted before (Ref.Array_sort A cmp l).
Proof using before_trans cmp_truthful.
  induction 1 as [|x l Hx Hl IH]; simpl; [constructor|].
  apply Ref_insert_sorted; [exact Hx | | exact IH].
  eapply Permutation_Forall; [apply Ref_sort_perm | exact Hl].
Qed.

End InsertionSort.

Lemma refRuntime_sort_permutes : sort_permutes.
Proof. intros A cmp l. apply Ref_sort_perm. Qed.

Lemma refRuntime_sort_orders : sort_orders.
Proof.
  intros A cmp before l Htrans Htruth.
  apply (Ref_sort_sorted A cmp before (fun a => In a l) Htrans Htruth).
  apply List.Forall_forall. intros a Ha. exact Ha.
Qed.

(** ** Paths *)

Lemma split_without (sep : ascii) (s : string) :
  hasChar sep s = false -> String_split sep s = [s].
Proof.
  induction s as [|c s IH]; intros Hs; [reflexivity|].
  simpl in Hs. apply orb_false_elim in Hs as [Hc Hs].
  simpl. rewrite Hc, (IH Hs). reflexivity.
Qed.

Lemma normalizeSegments_proper (above segments : list string) :
  List.Forall (fun s => properSegment s = true) segments ->
  normalizeSegments above segments = (rev above ++ segments)%list.
Proof.
  intros Hp. revert above.
  induction Hp as [|s segments Hs _ IH]; intros above; simpl.
  - rewrite app_nil_r. reflexivity.
  - unfold properSegment in Hs. apply andb_true_iff in Hs as [Hs1 Hs2].
    apply negb_true_iff in Hs1, Hs2. rewrite Hs1, Hs2, IH. simpl.
    rewrite <- app_assoc. reflexivity.
Qed.

Lemma normalizeSegments_normal (above segments : list string) :
  List.Forall (fun s => properSegment s = true) above ->
  List.Forall (fun s => properSegment s = true) (normalizeSegments above segments).
Proof.
  revert above. induction segments as [|s segments IH]; intros above Ha; simpl.
  - apply List.Forall_rev, Ha.
  - destruct (String.eqb s "" || String.eqb s ".") eqn:Hs1; [apply IH, Ha|].
    destruct (String.eqb s "..") eqn:Hs2.
    + apply IH. destruct above; [constructor|]. inversion Ha; assumption.
    + apply IH. constructor; [|exact Ha].
      unfold properSegment. rewrite Hs1, Hs2. reflexivity.
Qed.

Lemma under_app (dir rest : list string) : under dir (dir ++ rest) = Some rest.
Proof.
  induction dir as [|d dir IH]; [reflexivity|].
  simpl. rewrite String.eqb_refl. exact IH.
Qed.

(** A plain name joined to [POSTS_DIR] is that entry of [POSTS_DIR]. *)
Lemma joinPostsDir_plainName `{Runtime} (file : string) :
  plainName file = true -> joinPostsDir file = (POSTS_DIR ++ [file])%list.
Proof.
  intros Hp. unfold plainName in Hp.
  repeat (apply andb_true_iff in Hp as [Hp ?]).
  apply negb_true_iff in Hp.
  unfold joinPostsDir. rewrite (split_without "/" file Hp).
  rewrite normalizeSegments_proper; [reflexivity|].
  apply List.Forall_app. split.
  - apply normalizeSegments_normal. constructor.
  - constructor; [|constructor]. unfold properSegment.
    repeat match goal with
           | Hn : negb _ = true |- _ => apply negb_true_iff in Hn; rewrite ?Hn
           end.
    reflexivity.
Qed.

Lemma readFile_plainName `{Runtime} (root : ContentRoot) (file : string) :
  plainName file = true -> readFile root file = readEntry root file.
Proof.
  intros Hp. unfold readFile. rewrite (joinPostsDir_plainName file Hp), under_app.
  unfold plainName in Hp. repeat (apply andb_true_iff in Hp as [Hp ?]).
  match goal with Hn : negb (hasChar "000" file) = true |- _ =>
    apply negb_true_iff in Hn; rewrite Hn end.
  unfold readEntry. destruct root as [entries|]; [|reflexivity].
  simpl. destruct (find _ entries) as [e|]; [|reflexivity].
  destruct (kind e); reflexivity.
Qed.

(** ** [listPosts] *)

Lemma listPosts_Ok `{Runtime} (root : ContentRoot) (posts : list PostListItem) :
  listPosts root = Ok posts <->
  exists entries scanned,
    root = Some entries /\
    mapM (readPost root) (List.filter isMdxFile entries) = Ok scanned /\
    posts = Array_sort comparePosts scanned.
Proof.
  unfold listPosts. split.
  - intros Hl. apply bind_Ok in Hl as (entries & He & Hl).
    apply bind_Ok in Hl as (scanned & Hs & Hl). injection Hl as <-.
    destruct root as [entries'|]; [|discriminate]. injection He as ->.
    eauto.
  - intros (entries & scanned & -> & Hs & ->). simpl. rewrite Hs. reflexivity.
Qed.

(** What [matter] returns, when it returns, is [file_data] and
    [file_content]. *)
Lemma matter_Ok (raw : FileText) (data : list (string * JsValue)) (content : string) :
  matter raw = Ok (data, content) ->
  data = file_data raw /\ content = file_content raw.
Proof. destruct raw as [d c|text thrown [|]]; simpl; intros [= <- <-]; auto. Qed.

Lemma matter_returns (raw : FileText) :
  isOk (matter raw) = true -> matter raw = Ok (file_data raw, file_content raw).
Proof.
  destruct raw as [d c|text thrown [|]]; simpl; intros Hm;
    [reflexivity.. | discriminate].
Qed.

Lemma matter_Throw (raw : FileText) (e : JsError) :
  matter raw = Throw e <-> exists text, raw = Malformed text e false.
Proof.
  destruct raw as [d c|text thrown [|]]; simpl.
  - split; [discriminate | intros (text & [=])].
  - split; [discriminate | intros (text' & [=])].
  - split; [intros [= <-]; eauto | intros (text' & [= _ ->]); reflexivity].
Qed.

Lemma readPost_Ok `{Runtime} (root : ContentRoot) (file : Dirent) (p : PostListItem) :
  readPost root file = Ok p <->
  exists raw,
    readFile root (name file) = Ok raw /\
    isOk (matter raw) = true /\
    normalized_listPosts (file_data raw) = Ok (frontMatter p) /\
    slug p = stripMdx (name file).
Proof.
  unfold readPost. split.
  - intros Hr. apply bind_Ok in Hr as (raw & Hraw & Hr).
    apply bind_Ok in Hr as ([data content] & Hm & Hr).
    apply bind_Ok in Hr as (fm & Hfm & Hr). injection Hr as <-.
    exists raw. rewrite Hm. apply matter_Ok in Hm as [-> _]. auto.
  - intros (raw & Hraw & Hm & Hfm & Hslug). rewrite Hraw. simpl.
    rewrite (matter_returns raw Hm). simpl. rewrite Hfm. simpl.
    destruct p; simpl in *. congruence.
Qed.

Lemma readPost_category `{Runtime} (root : ContentRoot) (file : Dirent) (p : PostListItem) :
  readPost root file = Ok p -> In (category (frontMatter p)) ALL_CATEGORIES.
Proof.
  intros Hr. apply readPost_Ok in Hr as (raw & _ & _ & Hfm & _).
  apply normalized_listPosts_Ok in Hfm as (_ & _ & _ & Hk & _).
  eapply normalizeCategory_member, Hk.
Qed.

Lemma listPosts_categories `{Runtime} (root : ContentRoot) (posts : list PostListItem) :
  sort_permutes -> listPosts root = Ok posts ->
  Forall (fun p => In (category (frontMatter p)) ALL_CATEGORIES) posts.
Proof.
  intros Hperm Hl. apply listPosts_Ok in Hl as (entries & scanned & _ & Hs & ->).
  eapply Permutation_Forall; [apply Hperm|].
  apply mapM_Ok_Forall2 in Hs.
  induction Hs as [|file p files ps Hp _ IH]; constructor; [|exact IH].
  eapply readPost_category, Hp.
Qed.

Lemma listPosts_length `{Runtime} (root : ContentRoot) (posts : list PostListItem) :
  sort_permutes -> listPosts root = Ok posts ->
  exists entries,
    root = Some entries /\ length posts = length (List.filter isMdxFile entries).
Proof.
  intros Hperm Hl. apply listPosts_Ok in Hl as (entries & scanned & -> & Hs & ->).
  exists entries. split; [reflexivity|].
  rewrite <- (Permutation_length (Hperm _ comparePosts scanned)).
  eapply mapM_Ok_length, Hs.
Qed.

(** Reading an entry of a directory by its name finds that entry. *)
Lemma find_by_name (entries : list Dirent) (e : Dirent) :
  List.NoDup (map name entries) -> In e entries ->
  find (fun e' => String.eqb (name e') (name e)) entries = Some e.
Proof.
  induction entries as [|e' entries IH]; simpl; [contradiction|].
  intros Hnd Hin. inversion Hnd as [|? ? Hfresh Hnd']; subst.
  destruct Hin as [->|Hin].
  - rewrite String.eqb_refl. reflexivity.
  - destruct (String.eqb_spec (name e') (name e)) as [Heq|_].
    + exfalso. apply Hfresh. rewrite Heq. apply in_map, Hin.
    + apply IH; assumption.
Qed.

Lemma num_ge_trans (a b c : option Z) :
  num_ge a b = true -> num_ge b c = true -> num_ge a c = true.
Proof.
  destruct a, b, c; simpl; try discriminate.
  rewrite !Z.leb_le. lia.
Qed.

Lemma comparePosts_truthful `{Runtime} (a b : PostListItem) :
  createdTime a <> None -> createdTime b <> None ->
  (comparePosts a b <= 0 -> num_ge (createdTime a) (createdTime b) = true) /\
  (0 <= comparePosts a b -> num_ge (createdTime b) (createdTime a) = true).
Proof.
  unfold comparePosts, createdTime. intros Ha Hb.
  destruct (getTime (createdAt (frontMatter a))) as [x|]; [|contradiction].
  destruct (getTime (createdAt (frontMatter b))) as [y|]; [|contradiction].
  simpl. destruct (x <? y) eqn:Hlt.
  - apply Z.ltb_lt in Hlt. split; [lia|]. intros _. apply Z.leb_le. lia.
  - apply Z.ltb_ge in Hlt. split; [|lia]. intros _. apply Z.leb_le. lia.
Qed.

Lemma StronglySorted_adjacent {A} (R : A -> A -> Prop) (l : list A) (i : nat) (a b : A) :
  StronglySorted R l -> l !! i = Some a -> l !! S i = Some b -> R a b.
Proof.
  intros Hs. revert i. induction Hs as [|x l Hl IH Hx]; intros i Ha Hb.
  - discriminate.
  - destruct i as [|i]; simpl in *.
    + injection Ha as ->. destruct l as [|y l]; [discriminate|].
      injection Hb as ->. inversion Hx. assumption.
    + eapply IH; eassumption.
Qed.

Lemma num_ge_NaN_l (b : option Z) : num_ge None b = false.
Proof. reflexivity. Qed.

Lemma num_ge_NaN_r (a : option Z) : num_ge a None = false.
Proof. destruct a; reflexivity. Qed.

(** A post whose createdAt does not parse has a neighbour in any listing of
    two posts or more, and compares false with it: whatever order the sort
    leaves, the listing is not in descending order. *)
Lemma undated_post_breaks_order `{Runtime} (posts : list PostListItem) (p : PostListItem) :
  In p posts -> createdTime p = None -> (2 <= length posts)%nat ->
  ~ sortedByCreatedAtDesc posts.
Proof.
  intros Hin Hnan Hlen Hsorted.
  apply list_elem_of_In, list_elem_of_lookup in Hin as (i & Hi).
  destruct i as [|j].
  - destruct (lookup_lt_is_Some_2 posts 1%nat) as (b & Hb); [lia|].
    specialize (Hsorted 0%nat p b Hi Hb).
    rewrite Hnan, num_ge_NaN_l in Hsorted. discriminate.
  - destruct (lookup_lt_is_Some_2 posts j) as (a & Ha).
    { apply lookup_lt_Some in Hi. lia. }
    specialize (Hsorted j a p Ha Hi).
    rewrite Hnan, num_ge_NaN_r in Hsorted. discriminate.
Qed.

(** C5, as stated, fails: a post whose date did not parse keeps its raw
    string as createdAt, its time value is NaN, and [>=] is false on NaN.
    On the reference runtime the comparator's -1 for every pair that
    involves NaN even leaves the two dated posts in ascending order around
    the undated one; and on any runtime that does not parse "someday" and
    whose sort rearranges the array, no listing of this directory is in
    descending order. *)
Lemma listPosts_undated_unsorted :
  (map slug <$> listPosts undatedRoot = Ok ["old"; "draft"; "new"] /\
   map (fun p => createdAt (frontMatter p)) <$> listPosts undatedRoot
     = Ok ["2020-01-01T00:00:00.000Z"; "someday"; "2024-03-01T00:00:00.000Z"] /\
   getTime "someday" = None /\
   exists posts, listPosts undatedRoot = Ok posts /\ ~ sortedByCreatedAtDesc posts) /\
  (forall R : Runtime,
     @sort_permutes R -> @Date_parse R "someday" = None ->
     forall posts, @listPosts R undatedRoot = Ok posts ->
                   ~ @sortedByCreatedAtDesc R posts).
Proof.
  split.
  - split; [vm_compute; reflexivity|]. split; [vm_compute; reflexivity|].
    split; [vm_compute; reflexivity|].
    eexists. split; [vm_compute; reflexivity|].
    intros Hsorted. specialize (Hsorted 0%nat _ _ eq_refl eq_refl).
    vm_compute in Hsorted. discriminate.
  - intros R Hperm Hnan posts Hl.
    apply listPosts_Ok in Hl as (entries & scanned & [= <-] & Hs & ->).
    apply mapM_Ok_Forall2 in Hs.
    change (List.filter isMdxFile _)
      with [ document "old.mdx" [("date", JsString "2020-01-01")] "";
             document "draft.mdx" [("date", JsString "someday")] "";
             document "new.mdx" [("date", JsString "2024-03-01")] "" ] in Hs.
    inversion Hs as [|? old ? rest _ Hrest]; subst.
    inversion Hrest as [|? draft ? rest' Hdraft Hrest']; subst.
    inversion Hrest' as [|? new ? rest'' _ Hnil]; subst.
    inversion Hnil; subst.
    assert (createdTime draft = None) as Hdt.
    { apply readPost_Ok in Hdraft as (raw & Hraw & _ & Hfm & _).
      rewrite readFile_plainName in Hraw by reflexivity.
      vm_compute in Hraw. injection Hraw as <-.
      apply normalized_listPosts_Ok in Hfm as (_ & Hc & _).
      unfold normalizeDateToISO in Hc. simpl in Hc. rewrite Hnan in Hc. simpl in Hc.
      injection Hc as Hc. unfold createdTime, getTime. rewrite <- Hc. exact Hnan. }
    apply (undated_post_breaks_order _ draft).
    + eapply Permutation_in; [apply Hperm | simpl; auto].
    + exact Hdt.
    + rewrite <- (Permutation_length (Hperm _ comparePosts [old; draft; new])).
      simpl. lia.
Qed.

(** C5 (amended).  When the createdAt of every post of the listing parses to
    a time value, the list [listPosts] returns is sorted by createdAt
    descending: each adjacent pair [(a, b)] has [a.createdAt >= b.createdAt]
    as time values.  (The engine's sort is asked to rearrange the array and
    to order it whenever the comparator's answers are true of a transitive
    relation.) *)
Theorem listPosts_sorted `{Runtime} (root : ContentRoot) (posts : list PostListItem) :
  sort_permutes -> sort_orders ->
  listPosts root = Ok posts ->
  Forall (fun p => createdTime p <> None) posts ->
  sortedByCreatedAtDesc posts.
Proof.
  intros Hperm Horders Hl Hparse.
  apply listPosts_Ok in Hl as (entries & scanned & _ & _ & ->).
  assert (forall p, In p scanned -> createdTime p <> None) as Hscanned.
  { intros p Hp. rewrite List.Forall_forall in Hparse. apply Hparse.
    eapply Permutation_in; [apply Hperm | exact Hp]. }
  intros i a b Ha Hb.
  eapply (StronglySorted_adjacent
            (fun a b => num_ge (createdTime a) (createdTime b) = true));
    [|exact Ha|exact Hb].
  apply Horders.
  - intros x y z. apply num_ge_trans.
  - intros x y Hx Hy. apply comparePosts_truthful; apply Hscanned; assumption.
Qed.

(** The sample directory, on the reference runtime. *)
Lemma listPosts_sorted_witness :
  exists posts,
    listPosts sampleRoot = Ok posts /\
    map slug posts = ["a"; "hello"; "b"] /\
    sortedByCreatedAtDesc posts.
Proof.
  eexists. split; [vm_compute; reflexivity|]. split; [reflexivity|].
  apply (listPosts_sorted sampleRoot _ refRuntime_sort_permutes refRuntime_sort_orders).
  - vm_compute. reflexivity.
  - repeat constructor; intros Hnan; vm_compute in Hnan; discriminate.
Defined.

(** ** [listCategories] and [listPostsByCategory] *)

Lemma getCount_insert (counts : gmap string nat) (k c : string) (n : nat) :
  getCount (<[k := n]> counts) c = if String.eqb k c then n else getCount counts c.
Proof.
  unfold getCount. destruct (String.eqb_spec k c) as [->|Hne].
  - rewrite lookup_insert_eq. reflexivity.
  - rewrite lookup_insert_ne by exact Hne. reflexivity.
Qed.

Lemma getCount_initial (c : string) :
  getCount (foldl (fun counts c => <[c := 0%nat]> counts) ∅ ALL_CATEGORIES) c = 0%nat.
Proof.
  simpl. rewrite !getCount_insert.
  repeat match goal with |- context [String.eqb ?a c] => destruct (String.eqb a c) end;
    reflexivity.
Qed.

Lemma getCount_fold (posts : list PostListItem) (counts : gmap string nat) (c : string) :
  getCount
    (foldl (fun counts p =>
              <[category (frontMatter p) :=
                  (getCount counts (category (frontMatter p)) + 1)%nat]> counts)
           counts posts) c
  = (getCount counts c + countCategory c posts)%nat.
Proof.
  revert counts. induction posts as [|p posts IH]; intros counts; simpl.
  - unfold countCategory. simpl. lia.
  - rewrite IH, getCount_insert. unfold countCategory. simpl.
    destruct (String.eqb_spec (category (frontMatter p)) c) as [->|_]; simpl; lia.
Qed.

Lemma countCategory_total (posts : list PostListItem) :
  Forall (fun p => In (category (frontMatter p)) ALL_CATEGORIES) posts ->
  list_sum (map (fun c => countCategory c posts) ALL_CATEGORIES) = length posts.
Proof.
  induction 1 as [|p posts Hp _ IH]; [reflexivity|].
  unfold countCategory in *. simpl in *.
  destruct Hp as [<-|[<-|[<-|[<-|[]]]]]; simpl; lia.
Qed.

Lemma listCategories_Ok `{Runtime} (root : ContentRoot) (posts : list PostListItem) :
  listPosts root = Ok posts ->
  listCategories root =
    Ok (map (fun c => {| cc_category := c; cc_count := countCategory c posts |})
            ALL_CATEGORIES).
Proof.
  intros Hl. unfold listCategories. rewrite Hl.
  unfold mbind, Result_bind. f_equal. apply map_ext. intros c.
  rewrite getCount_fold, getCount_initial. reflexivity.
Qed.

(** C7.  Whenever the listing can be read, [listCategories] returns one entry
    per member of the enumeration, in the declared order frontend, backend,
    infra, etc, zero counts included; the counts add up to the number of
    documents of the directory, which is the length of [listPosts]; and the
    count of each entry is the length of [listPostsByCategory] of its
    category. *)
Theorem listCategories_counts `{Runtime} (root : ContentRoot) (posts : list PostListItem) :
  sort_permutes ->
  listPosts root = Ok posts ->
  exists cats entries,
    listCategories root = Ok cats /\
    map cc_category cats = ALL_CATEGORIES /\
    root = Some entries /\
    list_sum (map cc_count cats) = length (List.filter isMdxFile entries) /\
    length posts = length (List.filter isMdxFile entries) /\
    Forall (fun cc =>
              exists ps, listPostsByCategory root (cc_category cc) = Ok ps /\
                         length ps = cc_count cc) cats.
Proof.
  intros Hperm Hl.
  destruct (listPosts_length root posts Hperm Hl) as (entries & Hroot & Hlen).
  exists (map (fun c => {| cc_category := c; cc_count := countCategory c posts |})
              ALL_CATEGORIES), entries.
  split; [apply listCategories_Ok, Hl|].
  split; [reflexivity|]. split; [exact Hroot|]. split; [|split; [exact Hlen|]].
  - rewrite <- Hlen, <- (countCategory_total posts).
    + reflexivity.
    + apply listPosts_categories with (root := root); assumption.
  - apply List.Forall_forall. intros cc Hcc.
    apply in_map_iff in Hcc as (c & <- & _). simpl.
    unfold listPostsByCategory. rewrite Hl. simpl.
    eexists. split; reflexivity.
Qed.

(** The counts of the sample directory. *)
Lemma listCategories_counts_witness :
  exists posts,
    listPosts sampleRoot = Ok posts /\
    listCategories sampleRoot
      = Ok [ {| cc_category := "frontend"; cc_count := 1 |};
             {| cc_category := "backend"; cc_count := 0 |};
             {| cc_category := "infra"; cc_count := 0 |};
             {| cc_category := "etc"; cc_count := 2 |} ] /\
    exists cats, listCategories sampleRoot = Ok cats /\
                 list_sum (map cc_count cats) = length posts.
Proof.
  eexists. split; [vm_compute; reflexivity|]. split; [vm_compute; reflexivity|].
  edestruct (listCategories_counts sampleRoot) as
    (cats & entries & Hcats & _ & _ & Hsum & Hlen & _);
    [exact refRuntime_sort_permutes | vm_compute; reflexivity |].
  exists cats. split; [exact Hcats|]. rewrite Hsum. symmetry. exact Hlen.
Defined.

(** ** File names and slugs *)

Lemma append_cons (c : ascii) (s t : string) : String c s +:+ t = String c (s +:+ t).
Proof. reflexivity. Qed.

Lemma length_append (s t : string) :
  String.length (s +:+ t) = (String.length s + String.length t)%nat.
Proof.
  induction s as [|c s IH]; [reflexivity|].
  rewrite append_cons. simpl. rewrite IH. reflexivity.
Qed.

Lemma substring_whole (t : string) : substring 0 (String.length t) t = t.
Proof. induction t as [|c t IH]; simpl; [reflexivity | rewrite IH; reflexivity]. Qed.

Lemma substring_append_suffix (s t : string) :
  substring (String.length s) (String.length t) (s +:+ t) = t.
Proof.
  induction s as [|c s IH]; [apply substring_whole|].
  rewrite append_cons. simpl. exact IH.
Qed.

Lemma substring_append_prefix (s t : string) :
  substring 0 (String.length s) (s +:+ t) = s.
Proof.
  induction s as [|c s IH].
  - destruct t; reflexivity.
  - rewrite append_cons. simpl. rewrite IH. reflexivity.
Qed.

Lemma substring_split (s : string) (k : nat) :
  (k <= String.length s)%nat ->
  substring 0 k s +:+ substring k (String.length s - k) s = s.
Proof.
  revert k. induction s as [|c s IH]; intros k Hk.
  - destruct k; reflexivity.
  - destruct k as [|k].
    + change (substring 0 0 (String c s)) with "".
      rewrite Nat.sub_0_r. change ("" +:+ ?x) with x. apply substring_whole.
    + simpl in Hk. simpl. rewrite append_cons, IH by lia. reflexivity.
Qed.

Lemma endsWith_append (s t : string) : endsWith (s +:+ t) t = true.
Proof.
  unfold endsWith. rewrite length_append.
  replace (String.length s + String.length t - String.length t)%nat
    with (String.length s) by lia.
  rewrite substring_append_suffix, String.eqb_refl, andb_true_r.
  apply Nat.leb_le. lia.
Qed.

Lemma stripMdx_append (slug : string) : stripMdx (slug +:+ ".mdx") = slug.
Proof.
  unfold stripMdx. rewrite endsWith_append, length_append.
  replace (String.length slug + String.length ".mdx" - 4)%nat
    with (String.length slug) by (simpl; lia).
  apply substring_append_prefix.
Qed.

Lemma endsWith_stripMdx (file : string) :
  endsWith file ".mdx" = true -> file = stripMdx file +:+ ".mdx".
Proof.
  intros Hends. unfold stripMdx. rewrite Hends.
  unfold endsWith in Hends. apply andb_true_iff in Hends as [Hlen Hsuffix].
  apply Nat.leb_le in Hlen. apply String.eqb_eq in Hsuffix. simpl in Hlen, Hsuffix.
  rewrite <- Hsuffix.
  replace (substring (String.length file - 4) 4 file)
    with (substring (String.length file - 4)
                    (String.length file - (String.length file - 4)) file)
    by (f_equal; lia).
  symmetry. apply substring_split. lia.
Qed.

(** The slugs [getPostSlugs] lists are the slugs that have a document. *)
Lemma getPostSlugs_hasDocument `{Runtime} (root : ContentRoot) (slugs : list string)
    (slug : string) :
  getPostSlugs root = Ok slugs -> (In slug slugs <-> hasDocument root slug).
Proof.
  unfold getPostSlugs. intros Hs.
  destruct root as [entries|]; [|discriminate]. simpl in Hs. injection Hs as <-.
  rewrite in_map_iff. split.
  - intros (e & Hslug & He). apply filter_In in He as [Hin Hmdx].
    unfold isMdxFile in Hmdx. apply andb_true_iff in Hmdx as [Hfile Hends].
    exists entries, e. repeat split; try assumption.
    rewrite <- Hslug. apply endsWith_stripMdx, Hends.
  - intros (entries' & e & [= <-] & Hin & Hfile & Hname).
    exists e. split.
    + rewrite Hname. apply stripMdx_append.
    + apply filter_In. split; [exact Hin|].
      unfold isMdxFile. rewrite Hfile, Hname, endsWith_append. reflexivity.
Qed.

(** ** [getPostBySlug] *)

Lemma hasChar_append (c : ascii) (s t : string) :
  hasChar c (s +:+ t) = hasChar c s || hasChar c t.
Proof.
  induction s as [|c' s IH]; [reflexivity|].
  rewrite append_cons. simpl. rewrite IH, orb_assoc. reflexivity.
Qed.

(** The file name of a plain slug is a plain name. *)
Lemma plainName_mdx (slug : string) :
  plainSlug slug = true -> plainName (slug +:+ ".mdx") = true.
Proof.
  unfold plainSlug, plainName. intros Hp.
  apply andb_true_iff in Hp as [Hslash Hnul].
  apply negb_true_iff in Hslash, Hnul.
  rewrite !hasChar_append, Hslash, Hnul.
  assert (forall short, (String.length short < 4)%nat ->
                        String.eqb (slug +:+ ".mdx") short = false) as Hlong.
  { intros short Hshort. apply String.eqb_neq. intros Heq.
    apply (f_equal String.length) in Heq. rewrite length_append in Heq.
    simpl in Heq. lia. }
  rewrite !Hlong by (simpl; lia). reflexivity.
Qed.

Lemma readEntry_Ok (root : ContentRoot) (file : string) (text : FileText) :
  readEntry root file = Ok text ->
  exists entries e,
    root = Some entries /\ In e entries /\
    name e = file /\ kind e = RegularFile text.
Proof.
  unfold readEntry. destruct root as [entries|]; [|discriminate].
  destruct (find _ entries) as [e|] eqn:Hfind; [|discriminate].
  apply find_some in Hfind as [Hin Hname]. apply String.eqb_eq in Hname.
  destruct (kind e) as [text'|] eqn:Hk; [|discriminate].
  intros [= ->]. exists entries, e. auto.
Qed.


Lemma readEntry_hasDocument (root : ContentRoot) (slug : string) (text : FileText) :
  readEntry root (slug +:+ ".mdx") = Ok text -> hasDocument root slug.
Proof.
  intros Hr. apply readEntry_Ok in Hr as (entries & e & -> & Hin & Hname & Hk).
  exists entries, e. unfold isFile. rewrite Hk. auto.
Qed.

(** In a directory whose entries are well named, reading an entry by its
    name finds that entry. *)
Lemma readFile_entry `{Runtime} (entries : list Dirent) (e : Dirent) (text : FileText) :
  wellNamed entries -> In e entries -> kind e = RegularFile text ->
  readFile (Some entries) (name e) = Ok text.
Proof.
  intros [Hnd Hplain] Hin Hk.
  rewrite List.Forall_forall in Hplain.
  rewrite readFile_plainName by (apply Hplain, Hin).
  pose proof (find_by_name entries e Hnd Hin) as Hfind.
  unfold readEntry, Dirent in *. rewrite Hfind, Hk. reflexivity.
Qed.

(** [listPosts] returns a list whenever the directory exists and, for each
    of its documents, [matter] returns and the front matter is coercible. *)
Lemma listPosts_total `{Runtime} (entries : list Dirent) :
  wellNamed entries ->
  (forall e text, In e entries -> isMdxFile e = true ->
     kind e = RegularFile text ->
     isOk (matter text) = true /\ coercibleData (file_data text) = true) ->
  exists posts, listPosts (Some entries) = Ok posts.
Proof.
  intros Hwell Hco.
  destruct (mapM_Ok_exists (readPost (Some entries)) (List.filter isMdxFile entries))
    as (scanned & Hs).
  { apply List.Forall_forall. intros e He. apply filter_In in He as [Hin Hmdx].
    destruct (kind e) as [text|] eqn:Hk.
    - destruct (Hco e text Hin Hmdx Hk) as [Hm Hcoercible].
      destruct (normalized_listPosts_total (file_data text) Hcoercible) as (fm & Hfm).
      exists {| slug := stripMdx (name e); frontMatter := fm |}.
      apply readPost_Ok. exists text. simpl.
      split; [apply readFile_entry; assumption | auto].
    - unfold isMdxFile, isFile in Hmdx. rewrite Hk in Hmdx. discriminate. }
  eexists. apply listPosts_Ok. eauto.
Qed.

Lemma getPostBySlug_Ok `{Runtime} (root : ContentRoot) (slug : string) (r : RenderedPost) :
  getPostBySlug root slug = Ok r <->
  exists text,
    readFile root (slug +:+ ".mdx") = Ok text /\
    isOk (matter text) = true /\
    compileMDX (file_content text) = Ok (post_content r) /\
    normalized_getPostBySlug slug (file_data text) = Ok (post_frontMatter r).
Proof.
  unfold getPostBySlug. split.
  - intros Hg. apply bind_Ok in Hg as (text & Ht & Hg).
    apply bind_Ok in Hg as ([data content] & Hm & Hg).
    apply bind_Ok in Hg as (compiled & Hc & Hg).
    apply bind_Ok in Hg as (fm & Hfm & Hg). injection Hg as <-.
    exists text. rewrite Hm. apply matter_Ok in Hm as [-> ->]. auto.
  - intros (text & Ht & Hm & Hc & Hfm). rewrite Ht. simpl.
    rewrite (matter_returns text Hm). simpl. rewrite Hc. simpl.
    rewrite Hfm. destruct r; reflexivity.
Qed.

(** Once the file is read, the steps of [getPostBySlug] in their order:
    [matter], [compileMDX], the normalisation. *)
Lemma getPostBySlug_steps `{Runtime} (root : ContentRoot) (slug : string)
    (text : FileText) :
  readFile root (slug +:+ ".mdx") = Ok text ->
  (forall e, matter text = Throw e -> getPostBySlug root slug = Throw e) /\
  (isOk (matter text) = true ->
   (forall e, compileMDX (file_content text) = Throw e ->
              getPostBySlug root slug = Throw e) /\
   (forall compiled, compileMDX (file_content text) = Ok compiled ->
      (forall e, normalized_getPostBySlug slug (file_data text) = Throw e ->
                 getPostBySlug root slug = Throw e) /\
      (forall fm, normalized_getPostBySlug slug (file_data text) = Ok fm ->
                  getPostBySlug root slug
                  = Ok {| post_frontMatter := fm; post_content := compiled |}))).
Proof.
  intros Ht. unfold getPostBySlug. rewrite Ht. simpl. split.
  - intros e ->. reflexivity.
  - intros Hm. rewrite (matter_returns text Hm). simpl. split.
    + intros e ->. reflexivity.
    + intros compiled ->. simpl. split.
      * intros e ->. reflexivity.
      * intros fm ->. reflexivity.
Qed.




(** ** [extractText] *)

(** Induction on a render tree, with the hypothesis on every node of an
    array. *)
Lemma ReactNode_nested_ind (P : ReactNode -> Prop) :
  P RUndefined -> P RNull -> (forall b, P (RBool b)) ->
  (forall s, P (RString s)) -> (forall x, P (RNumber x)) ->
  (forall nodes, Forall P nodes -> P (RArray nodes)) ->
  (forall type children, P children -> P (RElement type children)) ->
  P ROther ->
  forall node, P node.
Proof.
  intros Hu Hn Hb Hs Hx Harr Hel Ho.
  fix IH 1.
  intros [| |b|s|x|nodes|type children|];
    [exact Hu | exact Hn | apply Hb | apply Hs | apply Hx | | | exact Ho].
  - apply Harr. induction nodes as [|n nodes IHnodes]; constructor.
    + apply IH.
    + exact IHnodes.
  - apply Hel, IH.
Qed.

Lemma append_empty_r (s : string) : s +:+ "" = s.
Proof.
  induction s as [|c s IH]; [reflexivity|].
  change (String c (s +:+ "") = String c s). f_equal. exact IH.
Qed.

Lemma concat_empty_separator (texts : list string) :
  String.concat "" texts = foldr String.append "" texts.
Proof.
  induction texts as [|t texts IH]; [reflexivity|].
  simpl. destruct texts as [|t' texts].
  - simpl. rewrite append_empty_r. reflexivity.
  - rewrite IH. reflexivity.
Qed.

Lemma extractText_array `{Runtime} (nodes : list ReactNode) :
  extractText (RArray nodes)
  = foldr (fun node rest => extractText node +:+ rest) "" nodes.
Proof.
  simpl. rewrite concat_empty_separator.
  induction nodes as [|n nodes IH]; simpl; [reflexivity | rewrite IH; reflexivity].
Qed.

Lemma extractText_evaluates `{Runtime} (node : ReactNode) :
  ExtractsTo node (extractText node).
Proof.
  induction node as [| | | | |nodes IH|type children IH|] using ReactNode_nested_ind;
    simpl; try constructor; try assumption.
  induction IH as [|n nodes Hn _ IHnodes]; simpl; constructor; assumption.
Qed.

Lemma Forall2_ExtractsTo `{Runtime} (nodes : list ReactNode) (texts : list string) :
  Forall (fun node => forall text, ExtractsTo node text -> text = extractText node) nodes ->
  Forall2 ExtractsTo nodes texts ->
  texts = map extractText nodes.
Proof.
  intros Hnodes Hall. induction Hall as [|n t nodes texts Hn _ IH]; [reflexivity|].
  inversion Hnodes as [|? ? Hhead Htail]; subst. simpl.
  rewrite (Hhead t Hn), (IH Htail). reflexivity.
Qed.

Lemma ExtractsTo_deterministic `{Runtime} (node : ReactNode) (text : string) :
  ExtractsTo node text -> text = extractText node.
Proof.
  revert text.
  induction node as [| | | | |nodes IH|type children IH|] using ReactNode_nested_ind;
    intros text He; inversion He; subst; simpl; try reflexivity.
  - f_equal. apply Forall2_ExtractsTo; assumption.
  - apply IH. assumption.
Qed.

(** C9.  [extractText] is a total function of the render tree: its
    evaluation on any finite node completes, and with one result only.  A
    nullish node gives the empty string; a text leaf gives its text and a
    numeric leaf its string form; an array gives the concatenation, in
    order, of the texts of its elements; an element gives the text of its
    children; and any other node (a boolean among them) gives the empty
    string. *)
Theorem extractText_spec `{Runtime} :
  (forall node, ExtractsTo node (extractText node)) /\
  (forall node text, ExtractsTo node text -> text = extractText node) /\
  extractText RUndefined = "" /\
  extractText RNull = "" /\
  (forall s, extractText (RString s) = s) /\
  (forall x, extractText (RNumber x) = Number_toString x) /\
  (forall nodes,
     extractText (RArray nodes)
     = foldr (fun node rest => extractText node +:+ rest) "" nodes) /\
  (forall type children, extractText (RElement type children) = extractText children) /\
  (forall b, extractText (RBool b) = "") /\
  extractText ROther = "".
Proof.
  split; [apply extractText_evaluates|].
  split; [apply ExtractsTo_deterministic|].
  split; [reflexivity|]. split; [reflexivity|]. split; [reflexivity|].
  split; [reflexivity|]. split; [apply extractText_array|].
  repeat split.
Qed.

(** The text of a code element. *)
Lemma extractText_spec_witness :
  extractText
    (RElement "code"
       (RArray [RString "const n = "; RNumber 42%float; RNull;
                RElement "span" (RString ";"); RBool true]))
  = "const n = 42;" /\
  ExtractsTo (RArray [RString "a"; RElement "b" (RString "c")]) "ac".
Proof.
  destruct extractText_spec as (Heval & _ & _ & _ & _ & _ & Harr & Hel & _).
  split.
  - rewrite Hel, Harr. reflexivity.
  - apply (Heval (RArray [RString "a"; RElement "b" (RString "c")])).
Defined.

(** * Further properties of the code *)

(** ** [getPostSlugs] *)

Lemma readPost_slug `{Runtime} (root : ContentRoot) (files : list Dirent)
    (scanned : list PostListItem) :
  mapM (readPost root) files = Ok scanned ->
  map slug scanned = map (fun e => stripMdx (name e)) files.
Proof.
  intros Hs. apply mapM_Ok_Forall2 in Hs.
  induction Hs as [|file p files scanned Hp _ IH]; [reflexivity|].
  apply readPost_Ok in Hp as (_ & _ & _ & _ & Hslug). simpl. rewrite Hslug, IH. reflexivity.
Qed.

(** X1.  Sorting loses and invents nothing: whenever [listPosts] returns,
    the slugs of its posts are, up to order, the slugs [getPostSlugs]
    returns for the same directory. *)
Theorem listPosts_slugs `{Runtime} (root : ContentRoot) (posts : list PostListItem) :
  sort_permutes ->
  listPosts root = Ok posts ->
  exists slugs, getPostSlugs root = Ok slugs /\ Permutation slugs (map slug posts).
Proof.
  intros Hperm Hl.
  apply listPosts_Ok in Hl as (entries & scanned & -> & Hs & ->).
  eexists. split; [reflexivity|].
  rewrite <- (readPost_slug _ _ _ Hs). apply Permutation_map, Hperm.
Qed.

(** The sample directory: sorted by date in the listing, in directory order
    in the scan. *)
Lemma listPosts_slugs_witness :
  exists posts slugs,
    listPosts sampleRoot = Ok posts /\ getPostSlugs sampleRoot = Ok slugs /\
    slugs = ["b"; "hello"; "a"] /\ map slug posts = ["a"; "hello"; "b"] /\
    Permutation slugs (map slug posts).
Proof.
  destruct (listPosts sampleRoot) as [posts|] eqn:Hl; [|vm_compute in Hl; discriminate].
  destruct (listPosts_slugs sampleRoot posts refRuntime_sort_permutes Hl)
    as (slugs & Hslugs & Hp).
  exists posts, slugs. split; [reflexivity|]. split; [exact Hslugs|].
  vm_compute in Hslugs. injection Hslugs as <-.
  vm_compute in Hl. injection Hl as <-.
  split; [reflexivity|]. split; [reflexivity | exact Hp].
Defined.

Lemma NoDup_map_filter {A B} (f : A -> B) (keep : A -> bool) (l : list A) :
  List.NoDup (map f l) -> List.NoDup (map f (List.filter keep l)).
Proof.
  induction l as [|x l IH]; simpl; [auto|].
  intros Hnd. inversion Hnd as [|? ? Hfresh Hnd']; subst.
  destruct (keep x); [|auto]. simpl. constructor; [|auto].
  intros Hin. apply Hfresh. apply in_map_iff in Hin as (y & Hy & Hin).
  apply filter_In in Hin as [Hin _]. rewrite <- Hy. apply in_map, Hin.
Qed.

Lemma slug_file_names (files : list Dirent) :
  Forall (fun e => isMdxFile e = true) files ->
  map (fun s => s +:+ ".mdx") (map (fun e => stripMdx (name e)) files) = map name files.
Proof.
  induction 1 as [|e files He _ IH]; [reflexivity|].
  simpl. rewrite IH. f_equal.
  unfold isMdxFile in He. apply andb_true_iff in He as [_ Hends].
  symmetry. apply endsWith_stripMdx, Hends.
Qed.

(** X2.  [getPostSlugs] only scans: it fails when the directory is missing
    and otherwise returns, whatever the files hold.  Each slug followed by
    ".mdx" is the name of the document it stands for, in directory order,
    so no two documents share a slug when no two entries share a name. *)
Theorem getPostSlugs_scan `{Runtime} :
  getPostSlugs None = Throw (SystemError "ENOENT") /\
  forall entries,
    exists slugs,
      getPostSlugs (Some entries) = Ok slugs /\
      map (fun s => s +:+ ".mdx") slugs = map name (List.filter isMdxFile entries) /\
      (List.NoDup (map name entries) -> List.NoDup slugs).
Proof.
  split; [reflexivity|]. intros entries. eexists. split; [reflexivity|].
  assert (map (fun s => s +:+ ".mdx")
              (map (fun e => stripMdx (name e)) (List.filter isMdxFile entries))
          = map name (List.filter isMdxFile entries)) as Hnames.
  { apply slug_file_names, List.Forall_forall. intros e He.
    apply filter_In in He as [_ He]. exact He. }
  split; [exact Hnames|].
  intros Hnd. apply (NoDup_map_inv (fun s => s +:+ ".mdx")).
  rewrite Hnames. apply NoDup_map_filter, Hnd.
Qed.

(** The scan of the sample directory skips the sub-directory and the text
    file. *)
Lemma getPostSlugs_scan_witness :
  exists slugs,
    getPostSlugs sampleRoot = Ok slugs /\
    map (fun s => s +:+ ".mdx") slugs = ["b.mdx"; "hello.mdx"; "a.mdx"] /\
    List.NoDup slugs.
Proof.
  destruct getPostSlugs_scan as (_ & Hscan).
  edestruct Hscan as (slugs & Hslugs & Hnames & Hnd).
  exists slugs. split; [exact Hslugs|]. split; [exact Hnames|].
  apply Hnd. repeat constructor; simpl; intuition discriminate.
Defined.

(** ** [isValidCategory] and [normalizeCategory] *)

Lemma isValidCategory_In (c : string) :
  isValidCategory c = true <-> In c ALL_CATEGORIES.
Proof.
  unfold isValidCategory, includes. rewrite existsb_exists. split.
  - intros (x & Hx & Heq). apply String.eqb_eq in Heq. subst. exact Hx.
  - intros Hin. exists c. split; [exact Hin | apply String.eqb_refl].
Qed.

(** X3.  The validator used on URLs and the normaliser used on front matter
    agree on what a category is: [isValidCategory] accepts exactly the
    names the category route is generated for, everything
    [normalizeCategory] returns is accepted, and so is the category of
    every post of a listing. *)
Theorem isValidCategory_normalized `{Runtime} :
  (forall c, isValidCategory c = true <-> In c CategoryRoute.generateStaticParams) /\
  (forall value c, normalizeCategory value = Ok c -> isValidCategory c = true) /\
  (forall root posts,
     sort_permutes -> listPosts root = Ok posts ->
     Forall (fun p => isValidCategory (category (frontMatter p)) = true) posts).
Proof.
  split; [|split].
  - intros c. unfold CategoryRoute.generateStaticParams. rewrite map_id.
    apply isValidCategory_In.
  - intros value c Hc. apply isValidCategory_In. eapply normalizeCategory_member, Hc.
  - intros root posts Hperm Hl.
    eapply Forall_impl; [apply (listPosts_categories root posts Hperm Hl)|].
    intros p Hp. apply isValidCategory_In, Hp.
Qed.

(** On the sample directory. *)
Lemma isValidCategory_normalized_witness :
  isValidCategory "Frontend" = false /\
  (exists c, normalizeCategory (JsString "Frontend") = Ok c /\ isValidCategory c = true) /\
  exists posts,
    listPosts sampleRoot = Ok posts /\
    Forall (fun p => isValidCategory (category (frontMatter p)) = true) posts.
Proof.
  destruct isValidCategory_normalized as (_ & Hnorm & Hposts).
  split; [reflexivity|]. split.
  - exists "frontend". split; [reflexivity|].
    apply (Hnorm (JsString "Frontend")). reflexivity.
  - destruct (listPosts sampleRoot) as [posts|] eqn:Hl; [|vm_compute in Hl; discriminate].
    exists posts. split; [reflexivity|].
    apply (Hposts sampleRoot posts refRuntime_sort_permutes Hl).
Defined.

(** X4.  [normalizeCategory] is idempotent: on an engine whose lower-casing
    and trimming leave the four category names as they are, normalising a
    category it has returned gives that category back. *)
Theorem normalizeCategory_idempotent `{Runtime} (value : JsValue) (c : string) :
  (forall k, In k ALL_CATEGORIES -> String_trim (String_toLowerCase k) = k) ->
  normalizeCategory value = Ok c ->
  normalizeCategory (JsString c) = Ok c.
Proof.
  intros Hfix Hc. apply normalizeCategory_member in Hc.
  assert (ToBoolean (JsString c) = true) as Htruthy.
  { simpl in Hc. destruct Hc as [<-|[<-|[<-|[<-|[]]]]]; reflexivity. }
  rewrite normalizeCategory_truthy by exact Htruthy. simpl.
  rewrite (Hfix c Hc), classify_fixes_members by exact Hc. reflexivity.
Qed.

(** A padded, capitalised category, normalised twice. *)
Lemma normalizeCategory_idempotent_witness :
  normalizeCategory (JsString " Infra ") = Ok "infra" /\
  normalizeCategory (JsString "infra") = Ok "infra".
Proof.
  split; [reflexivity|].
  apply (normalizeCategory_idempotent (JsString " Infra ") "infra"); [|reflexivity].
  intros k Hk. simpl in Hk. destruct Hk as [<-|[<-|[<-|[<-|[]]]]]; reflexivity.
Defined.

(** ** The date fields *)

Lemma rawUpdatedAt_default (fm : list (string * JsValue)) :
  isNullish (getProp fm "updatedAt") = true -> rawUpdatedAt fm = rawCreatedAt fm.
Proof. intros Hn. unfold rawUpdatedAt, rawCreatedAt, nullish. rewrite Hn. reflexivity. Qed.

(** X5.  A document without [updatedAt] is normalised, on both paths, to an
    updatedAt equal to its createdAt; when its fields all coerce, both
    normalisations return such a record. *)
Theorem updatedAt_defaults_to_createdAt `{Runtime}
    (fm : list (string * JsValue)) (slug : string) :
  isNullish (getProp fm "updatedAt") = true ->
  (forall r, normalized_listPosts fm = Ok r -> updatedAt r = createdAt r) /\
  (forall r, normalized_getPostBySlug slug fm = Ok r -> updatedAt r = createdAt r) /\
  (coercibleData fm = true ->
   exists a b,
     normalized_listPosts fm = Ok a /\ normalized_getPostBySlug slug fm = Ok b /\
     updatedAt a = createdAt a /\ updatedAt b = createdAt b).
Proof.
  intros Hn.
  assert (forall r, normalized_listPosts fm = Ok r -> updatedAt r = createdAt r) as Hlist.
  { intros r Hr. apply normalized_listPosts_Ok in Hr as (_ & Hc & Hu & _).
    rewrite rawUpdatedAt_default in Hu by exact Hn. congruence. }
  assert (forall r, normalized_getPostBySlug slug fm = Ok r -> updatedAt r = createdAt r)
    as Hsingle.
  { intros r Hr. apply normalized_getPostBySlug_Ok in Hr as (_ & Hc & Hu & _).
    rewrite rawUpdatedAt_default in Hu by exact Hn. congruence. }
  split; [exact Hlist|]. split; [exact Hsingle|].
  intros Hco.
  destruct (normalized_listPosts_total fm Hco) as (a & Ha).
  destruct (normalized_getPostBySlug_total slug fm Hco) as (b & Hb).
  exists a, b. auto.
Qed.

(** A document with a date only. *)
Lemma updatedAt_defaults_to_createdAt_witness :
  exists a b,
    normalized_listPosts [("date", JsString "2024-03-01")] = Ok a /\
    normalized_getPostBySlug "hello" [("date", JsString "2024-03-01")] = Ok b /\
    updatedAt a = createdAt a /\ updatedAt b = createdAt b.
Proof.
  destruct (updatedAt_defaults_to_createdAt [("date", JsString "2024-03-01")] "hello")
    as (_ & _ & Hboth); [reflexivity|].
  apply Hboth. reflexivity.
Defined.

Lemma isoFormat_nonempty (t : Z) : isoFormat t <> "".
Proof.
  unfold isoFormat. destruct (civilFromDays (Day t)) as [[y m] d].
  destruct (isoYear y); discriminate.
Qed.

Lemma normalizeDateToISO_String `{Runtime} (s : string) :
  s <> "" ->
  normalizeDateToISO (JsString s) =
    Ok (match Date_parse s with Some t => isoFormat t | None => s end).
Proof.
  intros Hs. apply normalizeDateToISO_other; try reflexivity.
  simpl. destruct (String.eqb_spec s ""); [contradiction | reflexivity].
Qed.

Lemma normalizeDateToISO_result `{Runtime} (value : JsValue) (s : string) :
  normalizeDateToISO value = Ok s ->
  (exists t, s = isoFormat t) \/
  (Date_parse s = None /\ ToString value = Ok s /\ ToBoolean value = true).
Proof.
  intros Hs. destruct (ToBoolean value) eqn:Hb.
  - destruct value as [| |b|x|str|[t|]|xs|props];
      try (rewrite normalizeDateToISO_Date in Hs; simpl in Hs;
           first [discriminate | injection Hs as <-; left; eauto]).
    all: unfold normalizeDateToISO in Hs; rewrite Hb in Hs; cbn [negb] in Hs.
    all: apply bind_Ok in Hs as (asString & Hstr & Hs).
    all: destruct (Date_parse asString) as [t|] eqn:Hp; simpl in Hs;
      injection Hs as <-; [left; eauto | right; auto].
  - rewrite normalizeDateToISO_falsy in Hs by exact Hb. injection Hs as <-.
    left. exists 0. reflexivity.
Qed.

(** X6.  Normalising a date twice changes nothing more.  A result of
    [normalizeDateToISO] is the ISO form of a time value or a string the
    engine does not parse; an ISO form that the engine parses back to its
    time value is normalised to itself, and so is an unparsed string unless
    it is empty. *)
Theorem normalizeDateToISO_idempotent `{Runtime} :
  (forall value s, normalizeDateToISO value = Ok s ->
     (exists t, s = isoFormat t) \/ Date_parse s = None) /\
  (forall t, Date_parse (isoFormat t) = Some t ->
     normalizeDateToISO (JsString (isoFormat t)) = Ok (isoFormat t)) /\
  (forall s, s <> "" -> Date_parse s = None ->
     normalizeDateToISO (JsString s) = Ok s).
Proof.
  split; [|split].
  - intros value s Hs.
    destruct (normalizeDateToISO_result value s Hs) as [Hiso|(Hnone & _)]; auto.
  - intros t Hp. rewrite normalizeDateToISO_String by apply isoFormat_nonempty.
    rewrite Hp. reflexivity.
  - intros s Hs Hp. rewrite normalizeDateToISO_String by exact Hs.
    rewrite Hp. reflexivity.
Qed.

(** A YAML timestamp and a free-form date, each normalised twice. *)
Lemma normalizeDateToISO_idempotent_witness :
  normalizeDateToISO (JsDate (Some 1709251200000)) = Ok "2024-03-01T00:00:00.000Z" /\
  normalizeDateToISO (JsString "2024-03-01T00:00:00.000Z") = Ok "2024-03-01T00:00:00.000Z" /\
  normalizeDateToISO (JsString "next week") = Ok "next week".
Proof.
  destruct normalizeDateToISO_idempotent as (_ & Hiso & Hraw).
  split; [reflexivity|]. split.
  - apply (Hiso 1709251200000). vm_compute. reflexivity.
  - apply Hraw; [discriminate | reflexivity].
Defined.

(** X7.  The createdAt of a normalised document is never empty when the raw
    date is missing (or otherwise falsy), a valid [Date], or a string.  (A
    raw value whose string form is empty, such as an empty array, is what
    can leave it empty.) *)
Theorem normalizeDateToISO_nonempty `{Runtime} (value : JsValue) (s : string) :
  normalizeDateToISO value = Ok s ->
  ToBoolean value = false \/ instanceofDate value = true \/
  (exists str, value = JsString str) ->
  s <> "".
Proof.
  intros Hs Hkind.
  destruct (normalizeDateToISO_result value s Hs) as [(t & ->)|(_ & Hstr & Htruthy)].
  - apply isoFormat_nonempty.
  - destruct Hkind as [Hf|[Hd|(str & ->)]].
    + congruence.
    + destruct value as [| | | | |[t|]| |]; try discriminate;
        rewrite normalizeDateToISO_Date in Hs; simpl in Hs;
        first [discriminate | injection Hs as <-; apply isoFormat_nonempty].
    + simpl in Hstr, Htruthy. injection Hstr as <-.
      intros ->. discriminate.
Qed.

(** A date that does not parse is kept, and is not empty; the empty array is
    normalised to the empty string. *)
Lemma normalizeDateToISO_nonempty_witness :
  normalizeDateToISO (JsString "someday") = Ok "someday" /\ "someday" <> "" /\
  normalizeDateToISO (JsArray []) = Ok "".
Proof.
  split; [reflexivity|]. split; [|reflexivity].
  apply (normalizeDateToISO_nonempty (JsString "someday") "someday"); [reflexivity|].
  right. right. exists "someday". reflexivity.
Defined.

(** ** The keys the normalisers read *)

(** X8.  Front matter is read through six keys, and through [date] only
    when [createdAt] is missing: two documents that agree there are
    normalised alike on both paths, whatever else they hold. *)
Theorem normalized_ignores_other_keys `{Runtime}
    (fm fm' : list (string * JsValue)) (slug : string) :
  (forall k,
     In k ["title"; "createdAt"; "updatedAt"; "category"; "description"; "tags"] ->
     getProp fm k = getProp fm' k) ->
  (isNullish (getProp fm "createdAt") = true ->
   getProp fm "date" = getProp fm' "date") ->
  normalized_listPosts fm = normalized_listPosts fm' /\
  normalized_getPostBySlug slug fm = normalized_getPostBySlug slug fm'.
Proof.
  intros Hkeys Hdate.
  assert (getProp fm "title" = getProp fm' "title") as Ht by (apply Hkeys; simpl; auto 10).
  assert (getProp fm "createdAt" = getProp fm' "createdAt") as Hc
    by (apply Hkeys; simpl; auto 10).
  assert (getProp fm "updatedAt" = getProp fm' "updatedAt") as Hu
    by (apply Hkeys; simpl; auto 10).
  assert (getProp fm "category" = getProp fm' "category") as Hk
    by (apply Hkeys; simpl; auto 10).
  assert (coerceDescription fm = coerceDescription fm') as Hd.
  { unfold coerceDescription. rewrite (Hkeys "description") by (simpl; auto 10).
    reflexivity. }
  assert (coerceTags fm = coerceTags fm') as Hg.
  { unfold coerceTags. rewrite (Hkeys "tags") by (simpl; auto 10). reflexivity. }
  assert (rawCreatedAt fm = rawCreatedAt fm') as Hrc.
  { unfold rawCreatedAt, nullish. rewrite <- Hc.
    destruct (isNullish (getProp fm "createdAt")); [apply Hdate | ]; reflexivity. }
  assert (rawUpdatedAt fm = rawUpdatedAt fm') as Hru.
  { unfold rawUpdatedAt, nullish. rewrite <- Hu, <- Hc.
    destruct (isNullish (getProp fm "updatedAt")) eqn:Eu; [|rewrite Eu; reflexivity].
    destruct (isNullish (getProp fm "createdAt")); [apply Hdate | ]; reflexivity. }
  unfold normalized_listPosts, normalized_getPostBySlug.
  fold (rawCreatedAt fm) (rawUpdatedAt fm) (coerceDescription fm) (coerceTags fm).
  fold (rawCreatedAt fm') (rawUpdatedAt fm') (coerceDescription fm') (coerceTags fm').
  rewrite Ht, Hrc, Hru, Hk, Hd, Hg. split; reflexivity.
Qed.

(** A stray key and a [date] shadowed by [createdAt] change nothing. *)
Lemma normalized_ignores_other_keys_witness :
  normalized_listPosts
    [("draft", JsBool true); ("title", JsString "A");
     ("createdAt", JsString "2024-03-01"); ("date", JsString "1999-01-01")]
  = normalized_listPosts [("createdAt", JsString "2024-03-01"); ("title", JsString "A")].
Proof.
  apply (normalized_ignores_other_keys _ _ "a").
  - intros k Hk. simpl in Hk.
    destruct Hk as [<-|[<-|[<-|[<-|[<-|[<-|[]]]]]]]; reflexivity.
  - discriminate.
Defined.

Lemma mapString_strings `{Runtime} (strs : list string) :
  mapString (map JsString strs) = Ok strs.
Proof.
  unfold mapString. induction strs as [|s strs IH]; [reflexivity|].
  simpl. simpl in IH. rewrite IH. reflexivity.
Qed.

(** X9.  The tags of a normalised document come from an array and nothing
    else: a raw value of any other kind (a single string, say) leaves the
    document without tags, and an array gives one tag per element, in
    order, an array of strings being kept as it is. *)
Theorem tags_only_from_arrays `{Runtime}
    (fm : list (string * JsValue)) (slug : string) (r : PostFrontMatter) :
  normalized_listPosts fm = Ok r \/ normalized_getPostBySlug slug fm = Ok r ->
  match getProp fm "tags" with
  | JsArray xs =>
      exists l, tags r = Some l /\ mapString xs = Ok l /\ length l = length xs /\
                (forall strs, xs = map JsString strs -> l = strs)
  | _ => tags r = None
  end.
Proof.
  intros Hr.
  assert (coerceTags fm = Ok (tags r)) as Hg.
  { destruct Hr as [Hr|Hr];
      [apply normalized_listPosts_Ok in Hr | apply normalized_getPostBySlug_Ok in Hr];
      apply Hr. }
  unfold coerceTags in Hg.
  destruct (getProp fm "tags") as [| | | | | |xs|]; try (injection Hg as <-; reflexivity).
  apply fmap_Ok in Hg as (l & Hl & ->).
  exists l. split; [reflexivity|]. split; [exact Hl|]. split.
  - eapply mapM_Ok_length, Hl.
  - intros strs ->. rewrite mapString_strings in Hl. congruence.
Qed.

(** [tags: [mdx, rocq]] is kept; [tags: mdx, rocq], a string, is dropped. *)
Lemma tags_only_from_arrays_witness :
  (exists r, normalized_listPosts [("tags", JsArray [JsString "mdx"; JsString "rocq"])]
             = Ok r /\ tags r = Some ["mdx"; "rocq"]) /\
  (exists r, normalized_listPosts [("tags", JsString "mdx, rocq")] = Ok r /\
             tags r = None).
Proof.
  split.
  - destruct (normalized_listPosts [("tags", JsArray [JsString "mdx"; JsString "rocq"])])
      as [r|] eqn:Hr; [|vm_compute in Hr; discriminate].
    exists r. split; [reflexivity|].
    destruct (tags_only_from_arrays _ "a" r (or_introl Hr)) as (l & -> & _ & _ & Hstrs).
    f_equal. apply (Hstrs ["mdx"; "rocq"]). reflexivity.
  - destruct (normalized_listPosts [("tags", JsString "mdx, rocq")])
      as [r|] eqn:Hr; [|vm_compute in Hr; discriminate].
    exists r. split; [reflexivity|].
    apply (tags_only_from_arrays _ "a" r (or_introl Hr)).
Defined.

(** ** [listPostsByCategory] *)

Lemma listPostsByCategory_Ok `{Runtime} (root : ContentRoot) (posts : list PostListItem)
    (c : string) :
  listPosts root = Ok posts ->
  listPostsByCategory root c
  = Ok (List.filter (fun p => String.eqb (category (frontMatter p)) c) posts).
Proof. intros Hl. unfold listPostsByCategory. rewrite Hl. reflexivity. Qed.

Lemma filter_categories_perm (posts : list PostListItem) :
  Forall (fun p => In (category (frontMatter p)) ALL_CATEGORIES) posts ->
  Permutation
    (concat (map (fun c => List.filter
                             (fun p => String.eqb (category (frontMatter p)) c) posts)
                 ALL_CATEGORIES))
    posts.
Proof.
  induction 1 as [|p posts Hp _ IH]; [reflexivity|].
  simpl in IH. simpl. rewrite !app_nil_r in *.
  destruct Hp as [Hc|[Hc|[Hc|[Hc|[]]]]]; rewrite <- Hc; simpl.
  - apply perm_skip, IH.
  - symmetry. apply Permutation_cons_app. symmetry. exact IH.
  - rewrite app_assoc. symmetry. apply Permutation_cons_app.
    rewrite <- app_assoc. symmetry. exact IH.
  - rewrite !app_assoc. symmetry. apply Permutation_cons_app.
    rewrite <- !app_assoc. symmetry. exact IH.
Qed.

Lemma filter_other_category (posts : list PostListItem) (c : string) :
  Forall (fun p => In (category (frontMatter p)) ALL_CATEGORIES) posts ->
  ~ In c ALL_CATEGORIES ->
  List.filter (fun p => String.eqb (category (frontMatter p)) c) posts = [].
Proof.
  intros Hall Hc. induction Hall as [|p posts Hp _ IH]; [reflexivity|].
  simpl. destruct (String.eqb_spec (category (frontMatter p)) c) as [Heq|_]; [|exact IH].
  exfalso. apply Hc. rewrite <- Heq. exact Hp.
Qed.

(** X10.  The four category listings split the listing: whenever
    [listPosts] returns, [listPostsByCategory] returns for each category of
    the enumeration, every post of the listing is in exactly one of the four
    results, each result holds posts of its category only, and a category
    outside the enumeration has no posts. *)
Theorem listPostsByCategory_partition `{Runtime} (root : ContentRoot)
    (posts : list PostListItem) :
  sort_permutes ->
  listPosts root = Ok posts ->
  (exists groups,
     mapM (listPostsByCategory root) ALL_CATEGORIES = Ok groups /\
     Permutation (concat groups) posts) /\
  (forall c ps, listPostsByCategory root c = Ok ps ->
     Forall (fun p => category (frontMatter p) = c) ps) /\
  (forall c, ~ In c ALL_CATEGORIES -> listPostsByCategory root c = Ok []).
Proof.
  intros Hperm Hl.
  pose proof (listPosts_categories root posts Hperm Hl) as Hcats.
  split; [|split].
  - exists (map (fun c => List.filter
                            (fun p => String.eqb (category (frontMatter p)) c) posts)
                ALL_CATEGORIES).
    split; [|apply filter_categories_perm, Hcats].
    apply mapM_Ok_Forall2. unfold ALL_CATEGORIES. simpl.
    repeat constructor; apply listPostsByCategory_Ok, Hl.
  - intros c ps Hps. rewrite (listPostsByCategory_Ok root posts c Hl) in Hps.
    injection Hps as <-. apply List.Forall_forall. intros p Hp.
    apply filter_In in Hp as [_ Hp]. apply String.eqb_eq, Hp.
  - intros c Hc. rewrite (listPostsByCategory_Ok root posts c Hl).
    rewrite filter_other_category by assumption. reflexivity.
Qed.

(** The sample directory: one frontend post, two in etc. *)
Lemma listPostsByCategory_partition_witness :
  map slug <$> listPostsByCategory sampleRoot "frontend" = Ok ["a"] /\
  map slug <$> listPostsByCategory sampleRoot "etc" = Ok ["hello"; "b"] /\
  listPostsByCategory sampleRoot "Frontend" = Ok [] /\
  exists posts groups,
    listPosts sampleRoot = Ok posts /\
    mapM (listPostsByCategory sampleRoot) ALL_CATEGORIES = Ok groups /\
    Permutation (concat groups) posts.
Proof.
  destruct (listPosts sampleRoot) as [posts|] eqn:Hl; [|vm_compute in Hl; discriminate].
  destruct (listPostsByCategory_partition sampleRoot posts refRuntime_sort_permutes Hl)
    as ((groups & Hgroups & Hperm) & _ & Hother).
  split; [vm_compute; reflexivity|]. split; [vm_compute; reflexivity|].
  split; [apply Hother; simpl; intuition discriminate|].
  exists posts, groups. auto.
Defined.

Lemma listPosts_StronglySorted `{Runtime} (root : ContentRoot) (posts : list PostListItem) :
  sort_permutes -> sort_orders ->
  listPosts root = Ok posts ->
  Forall (fun p => createdTime p <> None) posts ->
  StronglySorted (fun a b => num_ge (createdTime a) (createdTime b) = true) posts.
Proof.
  intros Hperm Horders Hl Hparse.
  apply listPosts_Ok in Hl as (entries & scanned & _ & _ & ->).
  apply Horders.
  - intros x y z. apply num_ge_trans.
  - intros x y Hx Hy. rewrite List.Forall_forall in Hparse.
    apply comparePosts_truthful; apply Hparse;
      (eapply Permutation_in; [apply Hperm | assumption]).
Qed.

Lemma StronglySorted_filter_keeps {A} (R : A -> A -> Prop) (keep : A -> bool) (l : list A) :
  StronglySorted R l -> StronglySorted R (List.filter keep l).
Proof.
  induction 1 as [|x l Hl IH Hx]; simpl; [constructor|].
  destruct (keep x); [|exact IH].
  constructor; [exact IH|].
  apply List.Forall_forall. intros y Hy. apply filter_In in Hy as [Hy _].
  rewrite List.Forall_forall in Hx. apply Hx, Hy.
Qed.

(** X11.  A category listing inherits the order of the listing: when the
    createdAt of every post parses, [listPostsByCategory] returns, for any
    category, a list sorted by createdAt descending. *)
Theorem listPostsByCategory_sorted `{Runtime} (root : ContentRoot)
    (posts : list PostListItem) (c : string) :
  sort_permutes -> sort_orders ->
  listPosts root = Ok posts ->
  Forall (fun p => createdTime p <> None) posts ->
  exists ps, listPostsByCategory root c = Ok ps /\ sortedByCreatedAtDesc ps.
Proof.
  intros Hperm Horders Hl Hparse.
  eexists. split; [apply listPostsByCategory_Ok, Hl|].
  intros i a b Ha Hb.
  eapply (StronglySorted_adjacent
            (fun a b => num_ge (createdTime a) (createdTime b) = true));
    [|exact Ha|exact Hb].
  apply StronglySorted_filter_keeps.
  eapply listPosts_StronglySorted; eassumption.
Qed.

(** The etc posts of the sample directory, newest first. *)
Lemma listPostsByCategory_sorted_witness :
  exists ps,
    listPostsByCategory sampleRoot "etc" = Ok ps /\
    map slug ps = ["hello"; "b"] /\ sortedByCreatedAtDesc ps.
Proof.
  destruct (listPosts sampleRoot) as [posts|] eqn:Hl; [|vm_compute in Hl; discriminate].
  destruct (listPostsByCategory_sorted sampleRoot posts "etc"
              refRuntime_sort_permutes refRuntime_sort_orders Hl) as (ps & Hps & Hsorted).
  { vm_compute in Hl. injection Hl as <-.
    repeat constructor; intros Hnan; vm_compute in Hnan; discriminate. }
  exists ps. split; [exact Hps|]. split; [|exact Hsorted].
  vm_compute in Hps. injection Hps as <-. reflexivity.
Defined.

(** ** The listing and the single post *)

Lemma normalized_getPostBySlug_listPosts `{Runtime}
    (fm : list (string * JsValue)) (slug : string) :
  normalized_getPostBySlug slug fm =
    (fun r => if isNullish (getProp fm "title") then withTitle slug r else r)
      <$> normalized_listPosts fm.
Proof.
  unfold normalized_getPostBySlug, normalized_listPosts.
  fold (rawCreatedAt fm) (rawUpdatedAt fm) (coerceDescription fm) (coerceTags fm).
  destruct (isNullish (getProp fm "title")) eqn:Hn.
  - rewrite !title_missing by exact Hn. simpl.
    destruct (normalizeDateToISO (rawCreatedAt fm)); [|reflexivity]. simpl.
    destruct (normalizeDateToISO (rawUpdatedAt fm)); [|reflexivity]. simpl.
    destruct (normalizeCategory _); [|reflexivity]. simpl.
    destruct (coerceDescription fm); [|reflexivity]. simpl.
    destruct (coerceTags fm); reflexivity.
  - rewrite !title_present by exact Hn.
    destruct (ToString (getProp fm "title")); [|reflexivity]. simpl.
    destruct (normalizeDateToISO (rawCreatedAt fm)); [|reflexivity]. simpl.
    destruct (normalizeDateToISO (rawUpdatedAt fm)); [|reflexivity]. simpl.
    destruct (normalizeCategory _); [|reflexivity]. simpl.
    destruct (coerceDescription fm); [|reflexivity]. simpl.
    destruct (coerceTags fm); reflexivity.
Qed.

Lemma listPosts_In `{Runtime} (root : ContentRoot) (posts : list PostListItem)
    (p : PostListItem) :
  sort_permutes -> listPosts root = Ok posts -> In p posts ->
  exists file text,
    isMdxFile file = true /\
    readFile root (slug p +:+ ".mdx") = Ok text /\
    name file = slug p +:+ ".mdx" /\
    isOk (matter text) = true /\
    normalized_listPosts (file_data text) = Ok (frontMatter p).
Proof.
  intros Hperm Hl Hin.
  apply listPosts_Ok in Hl as (entries & scanned & -> & Hs & ->).
  apply (Permutation_in _ (Permutation_sym (Hperm _ comparePosts scanned))) in Hin.
  apply mapM_Ok_Forall2 in Hs.
  assert (exists file, In file (List.filter isMdxFile entries) /\
                       readPost (Some entries) file = Ok p) as (file & Hfile & Hp).
  { clear -Hs Hin. induction Hs as [|file q files ps Hq _ IH]; [contradiction|].
    destruct Hin as [->|Hin].
    - exists file. split; [left; reflexivity | exact Hq].
    - destruct (IH Hin) as (f & Hf & Hp). exists f. split; [right; exact Hf | exact Hp]. }
  apply filter_In in Hfile as [_ Hmdx].
  apply readPost_Ok in Hp as (text & Htext & Hmatter & Hfm & Hslug).
  assert (name file = slug p +:+ ".mdx") as Hname.
  { rewrite Hslug. apply endsWith_stripMdx.
    unfold isMdxFile in Hmdx. apply andb_true_iff in Hmdx as [_ Hends]. exact Hends. }
  exists file, text. rewrite <- Hname. auto.
Qed.

(** X12.  A post of the listing can be looked up by its slug, and the lookup
    shows the same post: [getPostBySlug] reads the same file, fails only
    when the body does not compile (and then with the compiler's
    exception), and otherwise returns the listing's createdAt, updatedAt,
    category, description and tags, with the listing's title, or with the
    slug where the listing says "Untitled" for want of a title. *)
Theorem getPostBySlug_of_listed `{Runtime} (root : ContentRoot)
    (posts : list PostListItem) (p : PostListItem) :
  sort_permutes ->
  listPosts root = Ok posts -> In p posts ->
  exists text,
    readFile root (slug p +:+ ".mdx") = Ok text /\
    (forall e, compileMDX (file_content text) = Throw e ->
               getPostBySlug root (slug p) = Throw e) /\
    (forall compiled, compileMDX (file_content text) = Ok compiled ->
       exists r,
         getPostBySlug root (slug p) = Ok r /\ post_content r = compiled /\
         createdAt (post_frontMatter r) = createdAt (frontMatter p) /\
         updatedAt (post_frontMatter r) = updatedAt (frontMatter p) /\
         category (post_frontMatter r) = category (frontMatter p) /\
         description (post_frontMatter r) = description (frontMatter p) /\
         tags (post_frontMatter r) = tags (frontMatter p) /\
         (title (post_frontMatter r) = title (frontMatter p) \/
          title (frontMatter p) = "Untitled" /\ title (post_frontMatter r) = slug p)).
Proof.
  intros Hperm Hl Hin.
  destruct (listPosts_In root posts p Hperm Hl Hin)
    as (file & text & _ & Htext & _ & Hm & Hfm).
  destruct (getPostBySlug_steps root (slug p) text Htext) as [_ Hsteps].
  destruct (Hsteps Hm) as [Hcompile Hcompiled].
  exists text. split; [exact Htext|]. split; [exact Hcompile|].
  - intros compiled Hc.
    pose proof (normalized_getPostBySlug_listPosts (file_data text) (slug p)) as Heq.
    rewrite Hfm in Heq. simpl in Heq.
    eexists. split.
    { destruct (Hcompiled compiled Hc) as [_ Hreturns]. apply Hreturns, Heq. }
    simpl. split; [reflexivity|].
    destruct (isNullish (getProp (file_data text) "title")) eqn:Hn; simpl.
    + repeat (split; [reflexivity|]). right. split; [|reflexivity].
      apply normalized_listPosts_Ok in Hfm as (Ht & _).
      rewrite title_missing in Ht by exact Hn. congruence.
    + repeat (split; [reflexivity|]). left. reflexivity.
Qed.

(** The post [b] of the sample directory, looked up by its slug. *)
Lemma getPostBySlug_of_listed_witness :
  exists posts p r,
    listPosts sampleRoot = Ok posts /\ In p posts /\ slug p = "b" /\
    getPostBySlug sampleRoot "b" = Ok r /\
    createdAt (post_frontMatter r) = createdAt (frontMatter p) /\
    category (post_frontMatter r) = category (frontMatter p).
Proof.
  destruct (listPosts sampleRoot) as [posts|] eqn:Hl; [|vm_compute in Hl; discriminate].
  assert (exists p, In p posts /\ slug p = "b") as (p & Hin & Hslug).
  { vm_compute in Hl. injection Hl as <-. eexists. split; [do 2 right; left|]; reflexivity. }
  destruct (getPostBySlug_of_listed sampleRoot posts p refRuntime_sort_permutes Hl Hin)
    as (text & Htext & _ & Hfound).
  rewrite Hslug in Htext. vm_compute in Htext. injection Htext as <-.
  destruct (Hfound _ eq_refl) as (r & Hr & _ & Hc & _ & Hk & _).
  rewrite Hslug in Hr. exists posts, p, r. auto 10.
Defined.

(** ** The home page *)

Lemma StronglySorted_app_ordered {A} (R : A -> A -> Prop) (l1 l2 : list A) :
  StronglySorted R (l1 ++ l2)%list ->
  StronglySorted R l1 /\ forall a b, In a l1 -> In b l2 -> R a b.
Proof.
  induction l1 as [|x l1 IH]; simpl; intros Hs.
  - split; [constructor | contradiction].
  - inversion Hs as [|? ? Hrest Hx]; subst. destruct (IH Hrest) as [Hl1 Hcross].
    rewrite List.Forall_forall in Hx. split.
    + constructor; [exact Hl1|]. apply List.Forall_forall. intros y Hy.
      apply Hx, in_or_app. left. exact Hy.
    + intros a b [<-|Ha] Hb; [apply Hx, in_or_app; right; exact Hb | auto].
Qed.

(** X13.  The home page shows the most recent posts: when the createdAt of
    every post parses, the posts it keeps are the first ten of the listing
    (all of them when there are fewer), newest first, and each is at least
    as recent as every post it leaves out; it has none to show exactly
    when the directory holds no document. *)
Theorem recentPosts_most_recent `{Runtime} (root : ContentRoot)
    (posts : list PostListItem) :
  sort_permutes -> sort_orders ->
  listPosts root = Ok posts ->
  Forall (fun p => createdTime p <> None) posts ->
  exists recent entries,
    recentPosts root = Ok recent /\ root = Some entries /\
    length recent = Nat.min 10 (length posts) /\
    (recent ++ skipn 10 posts)%list = posts /\
    sortedByCreatedAtDesc recent /\
    (forall a b, In a recent -> In b (skipn 10 posts) ->
                 num_ge (createdTime a) (createdTime b) = true) /\
    (recent = [] <-> List.filter isMdxFile entries = []).
Proof.
  intros Hperm Horders Hl Hparse.
  pose proof (listPosts_StronglySorted root posts Hperm Horders Hl Hparse) as Hsorted.
  destruct (listPosts_length root posts Hperm Hl) as (entries & Hroot & Hlen).
  exists (firstn 10 posts), entries.
  split; [unfold recentPosts; rewrite Hl; reflexivity|].
  split; [exact Hroot|]. split; [apply length_firstn|].
  split; [apply firstn_skipn|].
  rewrite <- (firstn_skipn 10 posts) in Hsorted.
  apply StronglySorted_app_ordered in Hsorted as [Hrecent Hcross].
  split; [|split; [exact Hcross|]].
  - intros i a b Ha Hb.
    eapply (StronglySorted_adjacent
              (fun a b => num_ge (createdTime a) (createdTime b) = true));
      eassumption.
  - split.
    + intros Hnone. apply length_zero_iff_nil. rewrite <- Hlen.
      destruct posts; [reflexivity | discriminate].
    + intros Hnone. rewrite Hnone in Hlen. apply length_zero_iff_nil in Hlen.
      rewrite Hlen. reflexivity.
Qed.

(** The sample directory has three posts: all are shown. *)
Lemma recentPosts_most_recent_witness :
  exists recent,
    recentPosts sampleRoot = Ok recent /\ map slug recent = ["a"; "hello"; "b"] /\
    sortedByCreatedAtDesc recent.
Proof.
  destruct (listPosts sampleRoot) as [posts|] eqn:Hl; [|vm_compute in Hl; discriminate].
  destruct (recentPosts_most_recent sampleRoot posts
              refRuntime_sort_permutes refRuntime_sort_orders Hl)
    as (recent & entries & Hrecent & _ & _ & _ & Hsorted & _).
  { vm_compute in Hl. injection Hl as <-.
    repeat constructor; intros Hnan; vm_compute in Hnan; discriminate. }
  exists recent. split; [exact Hrecent|]. split; [|exact Hsorted].
  vm_compute in Hrecent. injection Hrecent as <-. reflexivity.
Defined.

(** ** The category route *)

(** X14.  The category page is guarded by the validator alone: for a name
    outside the enumeration (a capitalised one included) it answers
    [notFound()] without reading the directory, and for a name of the
    enumeration, so for every generated page, it never does.  There it
    renders exactly the posts of the listing that carry the category;
    hence every post of the listing is on the page of its own category; and
    a failure of the listing escapes the page. *)
Theorem CategoryPage_guard `{Runtime} :
  (forall root c,
     ~ In c ALL_CATEGORIES -> CategoryRoute.CategoryPage root c = NotFound) /\
  (forall root c,
     In c CategoryRoute.generateStaticParams ->
     CategoryRoute.CategoryPage root c <> NotFound) /\
  (forall root posts c,
     listPosts root = Ok posts -> In c ALL_CATEGORIES ->
     exists ps,
       CategoryRoute.CategoryPage root c = Renders ps /\
       forall p, In p ps <-> In p posts /\ category (frontMatter p) = c) /\
  (forall root posts p,
     sort_permutes -> listPosts root = Ok posts -> In p posts ->
     exists ps,
       CategoryRoute.CategoryPage root (category (frontMatter p)) = Renders ps /\
       In p ps) /\
  (forall root c e,
     listPosts root = Throw e -> In c ALL_CATEGORIES ->
     CategoryRoute.CategoryPage root c = Fails e).
Proof.
  assert (forall root posts c,
            listPosts root = Ok posts -> In c ALL_CATEGORIES ->
            exists ps,
              CategoryRoute.CategoryPage root c = Renders ps /\
              forall p, In p ps <-> In p posts /\ category (frontMatter p) = c)
    as Hrenders.
  { intros root posts c Hl Hc. unfold CategoryRoute.CategoryPage.
    apply isValidCategory_In in Hc. rewrite Hc. simpl.
    rewrite (listPostsByCategory_Ok root posts c Hl).
    eexists. split; [reflexivity|].
    intros p. rewrite filter_In, String.eqb_eq. reflexivity. }
  split; [|split; [|split; [exact Hrenders|split]]].
  - intros root c Hc. unfold CategoryRoute.CategoryPage.
    destruct (isValidCategory c) eqn:Hv; [|reflexivity].
    apply isValidCategory_In in Hv. contradiction.
  - intros root c Hc. unfold CategoryRoute.generateStaticParams in Hc.
    rewrite map_id in Hc. apply isValidCategory_In in Hc.
    unfold CategoryRoute.CategoryPage. rewrite Hc. simpl.
    destruct (listPostsByCategory root c); discriminate.
  - intros root posts p Hperm Hl Hin.
    pose proof (listPosts_categories root posts Hperm Hl) as Hcats.
    rewrite List.Forall_forall in Hcats.
    destruct (Hrenders root posts _ Hl (Hcats p Hin)) as (ps & Hps & Hiff).
    exists ps. split; [exact Hps|]. apply Hiff. auto.
  - intros root c e Hl Hc. unfold CategoryRoute.CategoryPage.
    apply isValidCategory_In in Hc. rewrite Hc. simpl.
    unfold listPostsByCategory. rewrite Hl. reflexivity.
Qed.

(** With no directory at all: a wrong name is not found, a right one
    fails on the read. *)
Lemma CategoryPage_guard_witness :
  CategoryRoute.CategoryPage None "Backend" = NotFound /\
  CategoryRoute.CategoryPage None "backend" = Fails (SystemError "ENOENT") /\
  exists ps, CategoryRoute.CategoryPage sampleRoot "frontend" = Renders ps /\
             map slug ps = ["a"].
Proof.
  destruct CategoryPage_guard as (Hinvalid & _ & _ & _ & Hfails).
  split; [apply Hinvalid; simpl; intuition discriminate|].
  split; [apply Hfails; [reflexivity | simpl; auto]|].
  eexists. split; [vm_compute; reflexivity | reflexivity].
Defined.

(** ** The post route *)

(** X15.  The post page never lets an exception out: whatever
    [getPostBySlug] throws (the read that fails, a metadata block that does
    not parse, a body that does not compile, a coercion that raises) becomes
    [notFound()], and [generateMetadata], on a call that throws, falls back
    to the title "Post | MDX Blog".  In particular a slug of one segment
    that has no document is not found.  When the page renders, the file of
    the slug was read, the view holds the post [getPostBySlug] returns, the
    metadata title is the post's title followed by " | MDX Blog", and a
    document whose metadata has no [updatedAt] is shown as not updated.
    (The page and the metadata are each one call; they are compared in one
    state of gray-matter's cache.) *)
Theorem PostPage_outcomes `{Runtime} (root : ContentRoot) (slug : string) :
  (forall e, getPostBySlug root slug = Throw e ->
     PostRoute.PostPage root slug = NotFound /\
     PostRoute.generateMetadata root slug
     = {| meta_title := "Post | MDX Blog"; meta_description := None |}) /\
  (forall text e,
     readFile root (slug +:+ ".mdx") = Throw e \/
     readFile root (slug +:+ ".mdx") = Ok text /\
     (matter text = Throw e \/
      compileMDX (file_content text) = Throw e \/
      normalized_getPostBySlug slug (file_data text) = Throw e) ->
     PostRoute.PostPage root slug = NotFound) /\
  (plainSlug slug = true -> ~ hasDocument root slug ->
   PostRoute.PostPage root slug = NotFound) /\
  (forall e, PostRoute.PostPage root slug <> Fails e) /\
  (forall view, PostRoute.PostPage root slug = Renders view ->
     getPostBySlug root slug = Ok (view_post view) /\
     meta_title (PostRoute.generateMetadata root slug)
     = title (post_frontMatter (view_post view)) +:+ " | MDX Blog" /\
     exists text,
       readFile root (slug +:+ ".mdx") = Ok text /\
       isOk (matter text) = true /\
       (plainSlug slug = true -> hasDocument root slug) /\
       (isNullish (getProp (file_data text) "updatedAt") = true ->
        view_isUpdated view = false)).
Proof.
  unfold PostRoute.PostPage, PostRoute.generateMetadata.
  split; [|split; [|split; [|split]]].
  - intros e He. rewrite He. auto.
  - intros text e Hcause.
    destruct (getPostBySlug root slug) as [post|e'] eqn:Hg; [|reflexivity].
    exfalso. apply getPostBySlug_Ok in Hg as (text' & Ht & Hm & Hc & Hfm).
    destruct Hcause as [Hread|[Hread [Hthrow|[Hthrow|Hthrow]]]];
      rewrite Hread in Ht; try discriminate; injection Ht as <-.
    + rewrite Hthrow in Hm. discriminate.
    + rewrite Hthrow in Hc. discriminate.
    + rewrite Hthrow in Hfm. discriminate.
  - intros Hplain Hno.
    destruct (getPostBySlug root slug) as [post|e] eqn:Hg; [|reflexivity].
    exfalso. apply Hno. apply getPostBySlug_Ok in Hg as (text & Ht & _).
    rewrite readFile_plainName in Ht by (apply plainName_mdx, Hplain).
    eapply readEntry_hasDocument, Ht.
  - intros e. destruct (getPostBySlug root slug); discriminate.
  - intros view Hview.
    destruct (getPostBySlug root slug) as [post|e] eqn:Hg; [|discriminate].
    injection Hview as <-. simpl.
    apply getPostBySlug_Ok in Hg as (text & Ht & Hm & _ & Hfm).
    split; [reflexivity|]. split; [reflexivity|].
    exists text. split; [exact Ht|]. split; [exact Hm|]. split.
    + intros Hplain.
      rewrite readFile_plainName in Ht by (apply plainName_mdx, Hplain).
      eapply readEntry_hasDocument, Ht.
    + intros Hn. apply normalized_getPostBySlug_Ok in Hfm as (_ & Hc & Hu & _).
      rewrite rawUpdatedAt_default in Hu by exact Hn.
      assert (updatedAt (post_frontMatter post) = createdAt (post_frontMatter post))
        as -> by congruence.
      rewrite String.eqb_refl. reflexivity.
Qed.

(** The page of "hello" renders, as not updated; an unknown slug is not
    found, and neither is the document whose metadata block does not
    parse. *)
Lemma PostPage_outcomes_witness :
  PostRoute.PostPage sampleRoot "nowhere" = NotFound /\
  PostRoute.PostPage nestedRoot "broken" = NotFound /\
  meta_title (PostRoute.generateMetadata sampleRoot "hello") = "Hello World | MDX Blog" /\
  exists view, PostRoute.PostPage sampleRoot "hello" = Renders view /\
               view_isUpdated view = false.
Proof.
  split; [|split].
  - destruct (PostPage_outcomes sampleRoot "nowhere") as (_ & _ & Hunlisted & _).
    apply Hunlisted; [reflexivity|].
    intros (entries & e & [= <-] & Hin & _ & Hname).
    simpl in Hin. intuition subst; discriminate.
  - destruct (PostPage_outcomes nestedRoot "broken") as (_ & Hcause & _).
    eapply (Hcause _ YAMLException). right.
    split; [vm_compute; reflexivity|]. left. reflexivity.
  - destruct (PostPage_outcomes sampleRoot "hello") as (_ & _ & _ & _ & Hrenders).
    edestruct Hrenders as (_ & Hmeta & text & Htext & _ & _ & Hupdated);
      [vm_compute; reflexivity|].
    split.
    + rewrite Hmeta. vm_compute. reflexivity.
    + eexists. split; [vm_compute; reflexivity|]. apply Hupdated.
      vm_compute in Htext. injection Htext as <-. reflexivity.
Defined.

(** X16.  Every post page that is generated renders unless its own document
    is at fault: for a slug of [generateStaticParams], in a directory whose
    entries are well named, the file is read, and the page answers
    [notFound()] exactly when the metadata block does not parse (and
    gray-matter has not cached the text), the body does not compile, or the
    normalisation of the front matter raises. *)
Theorem generated_post_pages `{Runtime} (entries : list Dirent)
    (slugs : list string) (slug : string) :
  wellNamed entries ->
  PostRoute.generateStaticParams (Some entries) = Ok slugs ->
  In slug slugs ->
  exists text,
    readFile (Some entries) (slug +:+ ".mdx") = Ok text /\
    (PostRoute.PostPage (Some entries) slug = NotFound <->
     (exists e, matter text = Throw e) \/
     (exists e, compileMDX (file_content text) = Throw e) \/
     (exists e, normalized_getPostBySlug slug (file_data text) = Throw e)).
Proof.
  intros Hwell Hparams Hin.
  unfold PostRoute.generateStaticParams in Hparams.
  apply bind_Ok in Hparams as (slugs' & Hslugs & Hparams).
  injection Hparams as <-. rewrite map_id in Hin.
  apply (getPostSlugs_hasDocument _ _ slug Hslugs) in Hin
    as (entries' & file & [= <-] & Hfile & Hisfile & Hname).
  unfold isFile in Hisfile. destruct (kind file) as [text|] eqn:Hk; [|discriminate].
  exists text.
  assert (readFile (Some entries) (slug +:+ ".mdx") = Ok text) as Htext.
  { rewrite <- Hname. apply readFile_entry; assumption. }
  split; [exact Htext|].
  destruct (getPostBySlug_steps _ slug text Htext) as [Hmatter Hsteps].
  unfold PostRoute.PostPage.
  destruct (matter text) as [[data content]|e] eqn:Hm.
  - destruct (Hsteps eq_refl) as [Hcompile Hcompiled].
    destruct (compileMDX (file_content text)) as [compiled|e] eqn:Hc.
    + destruct (Hcompiled compiled eq_refl) as [Hthrows Hreturns].
      destruct (normalized_getPostBySlug slug (file_data text)) as [fm|e] eqn:Hfm.
      * rewrite (Hreturns fm eq_refl). split; [discriminate|].
        intros [(e & He)|[(e & He)|(e & He)]]; discriminate.
      * rewrite (Hthrows e eq_refl). split; [eauto 6 | reflexivity].
    + rewrite (Hcompile e eq_refl). split; [eauto 6 | reflexivity].
  - rewrite (Hmatter e eq_refl). split; [eauto | reflexivity].
Qed.

(** The three generated pages of the sample directory all render. *)
Lemma generated_post_pages_witness :
  PostRoute.generateStaticParams sampleRoot = Ok ["b"; "hello"; "a"] /\
  PostRoute.PostPage sampleRoot "a" <> NotFound.
Proof.
  split; [vm_compute; reflexivity|].
  pose (entries := match sampleRoot with Some entries => entries | None => [] end).
  destruct (generated_post_pages entries ["b"; "hello"; "a"] "a")
    as (text & Htext & Hiff).
  - split; [repeat constructor; simpl; intuition discriminate | repeat constructor].
  - vm_compute. reflexivity.
  - do 2 right. left. reflexivity.
  - intros Hnot. apply Hiff in Hnot.
    vm_compute in Htext. injection Htext as <-.
    destruct Hnot as [(e & He)|[(e & He)|(e & He)]]; vm_compute in He; discriminate.
Defined.

(** ** The text of a code block *)

Lemma append_associative (s t u : string) : (s +:+ t) +:+ u = s +:+ (t +:+ u).
Proof.
  induction s as [|c s IH]; [reflexivity|].
  rewrite !append_cons. f_equal. exact IH.
Qed.

Lemma extractText_app `{Runtime} (xs ys : list ReactNode) :
  extractText (RArray (xs ++ ys))
  = extractText (RArray xs) +:+ extractText (RArray ys).
Proof.
  rewrite !extractText_array, fold_right_app.
  induction xs as [|x xs IH]; [reflexivity|].
  simpl. rewrite IH, append_associative. reflexivity.
Qed.

Lemma extractText_cons `{Runtime} (x : ReactNode) (xs : list ReactNode) :
  extractText (RArray (x :: xs)) = extractText x +:+ extractText (RArray xs).
Proof. rewrite !extractText_array. reflexivity. Qed.

(** X17.  The text of a code block is the text of its leaves, in order:
    the text of a list of children is the concatenation of the texts of any
    two parts it is cut into; an array nested among the children reads as
    its elements spliced in; an element reads as its children, whatever its
    type; and the children React renders as nothing (nullish ones, booleans)
    and the nodes of any other shape can be dropped from a list without
    changing the text.  So the text that is copied, [codeText], does not
    depend on how the highlighter wraps the lines in elements. *)
Theorem extractText_flattens `{Runtime} :
  (forall xs ys,
     extractText (RArray (xs ++ ys))
     = extractText (RArray xs) +:+ extractText (RArray ys)) /\
  (forall xs inner ys,
     extractText (RArray (xs ++ RArray inner :: ys))
     = extractText (RArray (xs ++ inner ++ ys))) /\
  (forall xs type children ys,
     extractText (RArray (xs ++ RElement type children :: ys))
     = extractText (RArray (xs ++ children :: ys))) /\
  (forall nodes,
     extractText (RArray (List.filter (fun node => negb (isBlankNode node)) nodes))
     = extractText (RArray nodes)) /\
  (forall type type' children,
     codeText (RElement type (RArray [RElement type' children]))
     = codeText children).
Proof.
  split; [exact extractText_app|]. split; [|split; [|split]].
  - intros xs inner ys.
    rewrite !extractText_app, extractText_cons. reflexivity.
  - intros xs type children ys.
    rewrite !extractText_app, !extractText_cons. reflexivity.
  - intros nodes. induction nodes as [|n nodes IH]; [reflexivity|].
    change (List.filter ?f (n :: nodes))
      with (if f n then n :: List.filter f nodes else List.filter f nodes).
    cbv beta. rewrite extractText_cons.
    destruct n; simpl isBlankNode; cbv iota beta;
      change (negb true) with false; change (negb false) with true; cbv iota;
      rewrite ?extractText_cons, IH; reflexivity.
  - intros type type' children. unfold codeText.
    change (extractText (RElement type (RArray [RElement type' children])))
      with (extractText (RArray [RElement type' children])).
    rewrite extractText_cons.
    change (extractText (RArray [])) with "".
    rewrite append_empty_r. reflexivity.
Qed.

(** A [<pre>] around a [<code>] whose lines are wrapped in spans, with
    stray non-text children, copies as the plain line. *)
Lemma extractText_flattens_witness :
  @codeText refRuntime
    (RElement "pre"
       (RArray
          [RElement "code"
             (RArray [RElement "span" (RString "  const x");
                      RBool false; RNull;
                      RArray [RElement "span" (RArray [RString " = "; RString "1;"]);
                              RString (String "010"%char "")]])]))
  = "const x = 1;".
Proof.
  destruct (@extractText_flattens refRuntime) as (_ & _ & _ & _ & Hwrapped).
  rewrite Hwrapped. vm_compute. reflexivity.
Defined.

(** ** The deployment path *)

Lemma split_first (sep : ascii) (s t : string) :
  hasChar sep s = false ->
  String_split sep (s +:+ String sep t) = s :: String_split sep t.
Proof.
  induction s as [|c s IH]; intros Hs.
  - change ("" +:+ String sep t) with (String sep t).
    simpl. rewrite Ascii.eqb_refl. reflexivity.
  - simpl in Hs. apply orb_false_elim in Hs as [Hc Hs].
    rewrite append_cons. simpl. rewrite Hc, (IH Hs). reflexivity.
Qed.

Lemma repoBasePath_nonempty (env : NextConfig.Env) :
  String.eqb (NextConfig.repoBasePath env) "" = false <->
  NextConfig.isGithubActions env = true /\
  NextConfig.isUserOrOrgSite env = false /\
  NextConfig.repoSlug env <> "".
Proof.
  unfold NextConfig.repoBasePath. rewrite <- String.eqb_neq.
  destruct (NextConfig.isGithubActions env), (NextConfig.isUserOrOrgSite env),
    (String.eqb (NextConfig.repoSlug env) ""); simpl; intuition congruence.
Qed.

Lemma repoBasePath_value (env : NextConfig.Env) :
  NextConfig.repoBasePath env = "" \/
  NextConfig.repoBasePath env = "/" +:+ NextConfig.repoSlug env.
Proof.
  unfold NextConfig.repoBasePath.
  destruct (_ && _ && _); [right | left]; reflexivity.
Qed.

Lemma basePath_Some (env : NextConfig.Env) :
  NextConfig.basePath env = Some ("/" +:+ NextConfig.repoSlug env) <->
  NextConfig.isGithubActions env = true /\
  NextConfig.isUserOrOrgSite env = false /\
  NextConfig.repoSlug env <> "".
Proof.
  rewrite <- repoBasePath_nonempty. unfold NextConfig.basePath.
  destruct (String.eqb (NextConfig.repoBasePath env) "") eqn:He; simpl.
  - split; discriminate.
  - split; [reflexivity|]. intros _.
    destruct (repoBasePath_value env) as [Hv|Hv]; rewrite Hv in *;
      [discriminate | reflexivity].
Qed.

Lemma basePath_None (env : NextConfig.Env) :
  NextConfig.basePath env = None <->
  NextConfig.isGithubActions env = false \/
  NextConfig.isUserOrOrgSite env = true \/
  NextConfig.repoSlug env = "".
Proof.
  unfold NextConfig.basePath, NextConfig.repoBasePath. rewrite <- String.eqb_eq.
  destruct (NextConfig.isGithubActions env), (NextConfig.isUserOrOrgSite env),
    (String.eqb (NextConfig.repoSlug env) ""); simpl; intuition congruence.
Qed.

Lemma isGithubActions_true (env : NextConfig.Env) :
  NextConfig.isGithubActions env = true <-> NextConfig.GITHUB_ACTIONS env = Some "true".
Proof.
  unfold NextConfig.isGithubActions.
  destruct (NextConfig.GITHUB_ACTIONS env) as [v|]; [|split; discriminate].
  rewrite String.eqb_eq. split; congruence.
Qed.

(** X18.  The site is served from a sub-path only when it is built in
    GitHub Actions for a project repository.  With [GITHUB_REPOSITORY] of
    the form [owner/name], the slug is [name], and [basePath] is [/name]
    exactly when [GITHUB_ACTIONS] is the string "true", [name] is not empty
    and does not end in ".github.io"; otherwise it is undefined.  In every
    environment [assetPrefix] is undefined together with [basePath] and is
    otherwise [basePath] followed by "/"; outside GitHub Actions, without
    the repository variable, or when it holds no "/", both are undefined. *)
Theorem basePath_project_pages :
  (forall actions owner name,
     hasChar "/" owner = false -> hasChar "/" name = false ->
     let env := {| NextConfig.GITHUB_ACTIONS := actions;
                   NextConfig.GITHUB_REPOSITORY := Some (owner +:+ "/" +:+ name) |} in
     NextConfig.repoSlug env = name /\
     (NextConfig.basePath env = Some ("/" +:+ name) <->
      actions = Some "true" /\ name <> "" /\ endsWith name ".github.io" = false) /\
     (NextConfig.basePath env = None <->
      actions <> Some "true" \/ name = "" \/ endsWith name ".github.io" = true)) /\
  (forall env,
     (NextConfig.basePath env = None <-> NextConfig.assetPrefix env = None) /\
     (forall p, NextConfig.basePath env = Some p ->
                NextConfig.assetPrefix env = Some (p +:+ "/") /\
                p = "/" +:+ NextConfig.repoSlug env)) /\
  (forall env,
     NextConfig.GITHUB_ACTIONS env <> Some "true" \/
     NextConfig.GITHUB_REPOSITORY env = None \/
     (exists repository,
        NextConfig.GITHUB_REPOSITORY env = Some repository /\
        hasChar "/" repository = false) ->
     NextConfig.basePath env = None /\ NextConfig.assetPrefix env = None).
Proof.
  split; [|split].
  - intros actions owner name Howner Hname env.
    assert (NextConfig.repoSlug env = name) as Hslug.
    { unfold NextConfig.repoSlug, env. simpl.
      change ("/" +:+ name) with (String "/" name).
      rewrite split_first, split_without by assumption. reflexivity. }
    split; [exact Hslug|].
    pose proof (basePath_Some env) as Hsome.
    pose proof (basePath_None env) as Hnone.
    pose proof (isGithubActions_true env) as Hact.
    unfold NextConfig.isUserOrOrgSite in Hsome, Hnone.
    rewrite Hslug in Hsome, Hnone. change (NextConfig.GITHUB_ACTIONS env) with actions in Hact.
    rewrite Hsome, Hnone, <- Hact.
    destruct (NextConfig.isGithubActions env), (endsWith name ".github.io");
      intuition congruence.
  - intros env. unfold NextConfig.basePath, NextConfig.assetPrefix.
    destruct (repoBasePath_value env) as [Hv|Hv]; rewrite Hv.
    + simpl. split; [tauto|]. discriminate.
    + change (("/" +:+ NextConfig.repoSlug env =? "")%string) with false. simpl.
      split; [split; discriminate|]. intros p [= <-]. auto.
  - intros env Henv.
    assert (NextConfig.basePath env = None) as Hb.
    { apply basePath_None. destruct Henv as [Ha|[Hr|(repository & Hr & Hs)]].
      - left. rewrite <- isGithubActions_true in Ha.
        destruct (NextConfig.isGithubActions env); congruence.
      - do 2 right. unfold NextConfig.repoSlug. rewrite Hr. reflexivity.
      - do 2 right. unfold NextConfig.repoSlug.
        rewrite Hr, split_without by exact Hs. reflexivity. }
    split; [exact Hb|].
    unfold NextConfig.basePath, NextConfig.assetPrefix in *.
    destruct (negb _); [discriminate | reflexivity].
Qed.

(** This repository, a user site, is served from the root; a project
    repository of the same owner from its name. *)
Lemma basePath_project_pages_witness :
  NextConfig.basePath
    {| NextConfig.GITHUB_ACTIONS := Some "true";
       NextConfig.GITHUB_REPOSITORY := Some "lch275/lch275.github.io" |} = None /\
  NextConfig.basePath
    {| NextConfig.GITHUB_ACTIONS := Some "true";
       NextConfig.GITHUB_REPOSITORY := Some "lch275/blog" |} = Some "/blog" /\
  NextConfig.assetPrefix
    {| NextConfig.GITHUB_ACTIONS := Some "true";
       NextConfig.GITHUB_REPOSITORY := Some "lch275/blog" |} = Some "/blog/".
Proof.
  destruct basePath_project_pages as (Hrepo & Hprefix & _).
  destruct (Hrepo (Some "true") "lch275" "lch275.github.io" eq_refl eq_refl)
    as (_ & _ & Hnone).
  destruct (Hrepo (Some "true") "lch275" "blog" eq_refl eq_refl)
    as (_ & Hsome & _).
  split; [apply Hnone; do 2 right; reflexivity|].
  assert (NextConfig.basePath
            {| NextConfig.GITHUB_ACTIONS := Some "true";
               NextConfig.GITHUB_REPOSITORY := Some "lch275/blog" |} = Some "/blog")
    as Hblog.
  { apply Hsome. split; [reflexivity | split; [discriminate | reflexivity]]. }
  split; [exact Hblog|].
  destruct (Hprefix {| NextConfig.GITHUB_ACTIONS := Some "true";
                       NextConfig.GITHUB_REPOSITORY := Some "lch275/blog" |})
    as (_ & Hasset).
  destruct (Hasset _ Hblog) as (Hassets & _). exact Hassets.
Defined.

(** ** Failure of the listing *)

Lemma mapM_Throw {A B} (f : A -> Result B) (l : list A) (e : JsError) :
  mapM f l = Throw e <->
  exists before x after,
    l = (before ++ x :: after)%list /\
    Forall (fun a => isOk (f a) = true) before /\
    f x = Throw e.
Proof.
  split.
  - induction l as [|a l IH]; simpl; [discriminate|].
    destruct (f a) as [b|e'] eqn:Ha; simpl.
    + destruct (mapM f l) as [bs|e'] eqn:Hl; simpl; [discriminate|].
      intros [= ->]. destruct (IH eq_refl) as (before & x & after & -> & Hb & Hx).
      exists (a :: before), x, after. split; [reflexivity|].
      split; [constructor; [rewrite Ha; reflexivity | exact Hb] | exact Hx].
    + intros [= ->]. exists [], a, l. auto.
  - intros (before & x & after & -> & Hb & Hx).
    induction Hb as [|a before Ha _ IH]; simpl.
    + rewrite Hx. reflexivity.
    + destruct (f a); [|discriminate]. simpl. rewrite IH. reflexivity.
Qed.

(** X19.  The listing fails as a whole.  In a given state of gray-matter's
    cache, [listPosts] raises exactly when the directory cannot be read
    (ENOENT) or some document fails, and then with the error of the first
    such document in directory order.  A document fails when its file
    cannot be read, when [matter] throws on it, or when the normalisation
    of its front matter raises.  [matter] throws, with the exception of the
    parser, on a metadata block that does not parse, once: the call leaves
    the text in the cache, and from then on the document is listed with the
    defaults of an empty front matter.  The failure takes the category counts, every category listing
    and the home page with it, whatever the other documents hold. *)
Theorem listing_fails_as_a_whole `{Runtime} (root : ContentRoot) (e : JsError) :
  (listPosts root = Throw e <->
   (root = None /\ e = SystemError "ENOENT") \/
   exists entries before file after,
     root = Some entries /\
     List.filter isMdxFile entries = (before ++ file :: after)%list /\
     Forall (fun f => isOk (readPost root f) = true) before /\
     readPost root file = Throw e) /\
  (forall file,
     readPost root file = Throw e <->
     readFile root (name file) = Throw e \/
     exists text,
       readFile root (name file) = Ok text /\
       (matter text = Throw e \/
        isOk (matter text) = true /\
        normalized_listPosts (file_data text) = Throw e)) /\
  (forall file text thrown,
     (readFile root (name file) = Ok (Malformed text thrown false) ->
      readPost root file = Throw thrown) /\
     (readFile root (name file) = Ok (Malformed text thrown true) ->
      readPost root file
      = Ok {| slug := stripMdx (name file);
              frontMatter :=
                {| title := "Untitled";
                   createdAt := "1970-01-01T00:00:00.000Z";
                   updatedAt := "1970-01-01T00:00:00.000Z";
                   category := "etc";
                   description := None;
                   tags := None |} |})) /\
  (listPosts root = Throw e ->
   listCategories root = Throw e /\
   (forall c, listPostsByCategory root c = Throw e) /\
   recentPosts root = Throw e /\
   (forall c, In c ALL_CATEGORIES -> CategoryRoute.CategoryPage root c = Fails e)).
Proof.
  split; [|split; [|split]].
  - unfold listPosts. destruct root as [entries|]; simpl.
    + destruct (mapM (readPost (Some entries)) (List.filter isMdxFile entries))
        as [posts|e'] eqn:Hm; simpl.
      * split; [discriminate|].
        intros [[? _]|(entries' & before & file & after & [= <-] & Hf & Hb & Hx)];
          [discriminate|].
        assert (mapM (readPost (Some entries)) (List.filter isMdxFile entries) = Throw e)
          as Hm' by (apply mapM_Throw; eauto 10).
        congruence.
      * apply mapM_Throw in Hm as (before & file & after & Hf & Hb & Hx). split.
        -- intros [= <-]. right. exists entries, before, file, after. auto.
        -- intros [[? _]|(entries' & before' & file' & after' & [= <-] & Hf' & Hb' & Hx')];
             [discriminate|].
           assert (mapM (readPost (Some entries)) (List.filter isMdxFile entries) = Throw e)
             as Hm' by (apply mapM_Throw; eauto 10).
           assert (mapM (readPost (Some entries)) (List.filter isMdxFile entries) = Throw e')
             as Hm'' by (apply mapM_Throw; eauto 10).
           congruence.
    + split; [intros [= <-]; left; auto|]. intros [[_ ->]|(? & ? & ? & ? & ? & _)];
        [reflexivity | discriminate].
  - intros file. unfold readPost.
    destruct (readFile root (name file)) as [text|e'] eqn:Ht; simpl.
    + destruct (matter text) as [[data content]|e'] eqn:Hm; simpl.
      * pose proof (matter_Ok _ _ _ Hm) as [-> _].
        destruct (normalized_listPosts (file_data text)) as [fm|e'] eqn:Hfm; simpl.
        -- split; [discriminate|].
           intros [Hread|(text' & Hread & [Hthrow|[_ Hthrow]])]; congruence.
        -- split.
           ++ intros [= ->]. right. exists text. rewrite ?Hm, ?Hfm. auto.
           ++ intros [Hread|(text' & Hread & [Hthrow|[_ Hthrow]])]; congruence.
      * split.
        -- intros [= ->]. right. exists text. rewrite ?Hm, ?Hfm. auto.
        -- intros [Hread|(text' & Hread & [Hthrow|[Hok _]])]; try congruence.
           injection Hread as <-. rewrite Hm in Hok. discriminate.
    + split.
      * intros [= ->]. left. reflexivity.
      * intros [Hread|(text' & Hread & _)]; congruence.
  - intros file text thrown. unfold readPost. split; intros ->; reflexivity.
  - intros Hl. unfold listCategories, listPostsByCategory, recentPosts.
    rewrite Hl. repeat split.
    intros c Hc. unfold CategoryRoute.CategoryPage, listPostsByCategory.
    apply isValidCategory_In in Hc. rewrite Hc, Hl. reflexivity.
Qed.

(** In [brokenRoot] the listing fails with the [TypeError] of "bad.mdx",
    not the [RangeError] of "worse.mdx"; the slugs are still listed and the
    page of "a" still renders.  In [nestedDir] the first listing fails on
    the metadata block of "broken.mdx", and a listing made after it
    returns. *)
Lemma listing_fails_as_a_whole_witness :
  listPosts brokenRoot = Throw TypeError /\
  listCategories brokenRoot = Throw TypeError /\
  getPostSlugs brokenRoot = Ok ["a"; "bad"; "worse"] /\
  PostRoute.PostPage brokenRoot "a" <> NotFound /\
  PostRoute.PostPage brokenRoot "worse" = NotFound /\
  listPosts (nestedDir false) = Throw YAMLException /\
  map (fun p => (slug p, title (frontMatter p))) <$> listPosts (nestedDir true)
  = Ok [("top", "Top"); ("broken", "Untitled")].
Proof.
  destruct (listing_fails_as_a_whole brokenRoot TypeError) as (Hfirst & _ & _ & Hall).
  assert (listPosts brokenRoot = Throw TypeError) as Hl.
  { apply Hfirst. right.
    exists [ document "a.mdx" [("title", JsString "A")] "fine";
             document "bad.mdx" [("category", JsObject [("toString", JsString "x")])] "";
             document "worse.mdx" [("date", JsDate None)] "" ],
           [ document "a.mdx" [("title", JsString "A")] "fine" ],
           (document "bad.mdx" [("category", JsObject [("toString", JsString "x")])] ""),
           [ document "worse.mdx" [("date", JsDate None)] "" ].
    split; [reflexivity|]. split; [reflexivity|].
    split; [repeat constructor | reflexivity]. }
  split; [exact Hl|]. split; [apply (Hall Hl)|].
  split; [reflexivity|]. split; [vm_compute; discriminate|].
  split; [vm_compute; reflexivity|]. split; vm_compute; reflexivity.
Defined.
